(** * Remote image resolution (pkg/fanal/image/remote.go) and license
      classification (package licensing)

    A shallow embedding of [tryRemote], [parsePlatform] and the accessors of
    [remoteImage] / [implicitReference], together with the properties of
    the resolution pipeline: credential precedence, wildcard platform
    resolution, error propagation and identity-string formatting; and of
    [Classify] and [initGoogleClassifier], with the properties of the
    findings, of the file type and of the one-time loading of the
    classifier.

    Go packages become modules ([strings], [name], [v1], [authn], [types],
    [remote], [classifier], [licensing]); the functions of package [image]
    live in [Section image], whose variables are the calls into the
    registry client and the credential helper. *)

From Stdlib Require Import String Ascii List Bool ZArith.
From Stdlib Require PrimFloat.
Import ListNotations.
Open Scope string_scope.

(* ------------------------------------------------------------------ *)
(** ** Go's [strings] package (byte strings) *)

Module strings.

(** [s[n:]] *)
Fixpoint slice_from (n : nat) (s : string) : string :=
  match n, s with
  | O, _ => s
  | S n', String _ s' => slice_from n' s'
  | S _, EmptyString => EmptyString
  end.

(** [strings.HasPrefix(s, prefix)] *)
Definition HasPrefix (s prefix : string) : bool := String.prefix prefix s.

(** [strings.TrimPrefix(s, prefix)]: [s] without the leading [prefix],
    or [s] itself when it does not start with [prefix]. *)
Definition TrimPrefix (s prefix : string) : string :=
  if HasPrefix s prefix then slice_from (String.length prefix) s else s.

End strings.

(** [fmt.Sprintf("%s<sep>%s", a, b)] for string operands. *)
Definition Sprintf2 (sep a b : string) : string := a ++ sep ++ b.

(* ------------------------------------------------------------------ *)
(** ** Errors *)

(** Go [error] values reaching this package.  The type switch in
    [parsePlatform] looks at the dynamic type of the value it is handed, so
    a wrapped schema-1 error is a different constructor. *)
Inductive error : Type :=
| ErrSchema1 (schema : string)               (* *remote.ErrSchema1 *)
| ErrorString (msg : string)                 (* any other library error *)
| Errorf (context : string) (cause : error). (* xerrors.Errorf("<context>: %w", cause) *)

(** [_, ok := err.( *remote.ErrSchema1)] *)
Definition isErrSchema1 (err : error) : bool :=
  match err with
  | ErrSchema1 _ => true
  | _ => false
  end.

(* ------------------------------------------------------------------ *)
(** ** go-containerregistry/pkg/name

    A parsed reference; the fields hold what the accessors answer. *)

Module name.

Definition DefaultRegistry : string := "index.docker.io".

Record Repository : Type := mkRepository
  { registry : string;
    repository : string }.

Definition RegistryStr (r : Repository) : string := registry r.
Definition RepositoryStr (r : Repository) : string := repository r.

(** [name.Reference] is implemented by [name.Tag] and [name.Digest]. *)
Inductive Reference : Type :=
| Tag (repo : Repository) (tag : string)
| Digest (repo : Repository) (digest : string).

Definition Context (ref : Reference) : Repository :=
  match ref with
  | Tag repo _ => repo
  | Digest repo _ => repo
  end.

End name.

(* ------------------------------------------------------------------ *)
(** ** go-containerregistry/pkg/v1 *)

Module v1.

Record Hash : Type := mkHash
  { Algorithm : string;
    Hex : string }.

(** [Hash.String()] *)
Definition Hash_String (h : Hash) : string := Algorithm h ++ ":" ++ Hex h.

Record Platform : Type := mkPlatform
  { Architecture : string;
    OS : string;
    OSVersion : string;
    Variant : string }.

Record Descriptor : Type := mkDescriptor
  { MediaType : string;
    Size : Z;
    Digest : Hash;
    Platform_ : option Platform }.   (* *Platform, nil when absent *)

Record IndexManifest : Type := mkIndexManifest
  { SchemaVersion : Z;
    Manifests : list Descriptor }.

End v1.

(* ------------------------------------------------------------------ *)
(** ** go-containerregistry/pkg/authn, net/http, crypto/tls *)

Module authn.

Record Basic : Type := mkBasic
  { Username : string;
    Password : string }.

Record Bearer : Type := mkBearer
  { Token : string }.

Inductive Authenticator : Type :=
| OfBasic (b : Basic)
| OfBearer (b : Bearer).

Inductive Keychain : Type :=
| DefaultKeychain.

End authn.

Module tls.
Record Config : Type := mkConfig { InsecureSkipVerify : bool }.
End tls.

Module http.
Record Transport : Type := mkTransport { TLSClientConfig : option tls.Config }.
End http.

(* ------------------------------------------------------------------ *)
(** ** pkg/fanal/types *)

Module types.

Record DockerOption : Type := mkDockerOption
  { Username : string;
    Password : string;
    RegistryToken : string;
    InsecureSkipTLSVerify : bool;
    Platform : string }.

End types.

(* ------------------------------------------------------------------ *)
(** ** go-containerregistry/pkg/v1/remote *)

Module remote.

Inductive Option : Type :=
| WithTransport (t : http.Transport)
| WithPlatform (p : v1.Platform)
| WithAuth (auth : authn.Authenticator)
| WithAuthFromKeychain (keys : authn.Keychain).

(** [remote.Descriptor] embeds [v1.Descriptor]. *)
Record Descriptor : Type := mkDescriptor
  { Descriptor_ : v1.Descriptor;
    Manifest : string }.

Definition Digest (d : Descriptor) : v1.Hash := v1.Digest (Descriptor_ d).

Definition isPlatformOption (o : Option) : bool :=
  match o with
  | WithPlatform _ => true
  | _ => false
  end.

Definition isAuthOption (o : Option) : bool :=
  match o with
  | WithAuth _ | WithAuthFromKeychain _ => true
  | _ => false
  end.

End remote.

(* ------------------------------------------------------------------ *)
(** ** Effects: calls into the registry, early failure, panics *)

Inductive event : Type :=
| CallIndex (ref : name.Reference) (opts : list remote.Option)
| CallIndexManifest
| LogDebug (msg : string)
| CallGet (ref : name.Reference) (opts : list remote.Option)
| CallImage (desc : remote.Descriptor).

Inductive outcome (A : Type) : Type :=
| Ok (a : A)           (* (a, nil) *)
| Err (err : error)    (* (nil, err) *)
| Panic (msg : string).
Arguments Ok {A} a.
Arguments Err {A} err.
Arguments Panic {A} msg.

(** A computation is the sequence of outside calls it made and how it
    ended. *)
Definition M (A : Type) : Type := (list event * outcome A)%type.

Definition trace {A} (m : M A) : list event := fst m.
Definition result {A} (m : M A) : outcome A := snd m.

Definition ret {A} (a : A) : M A := ([], Ok a).
Definition fail {A} (err : error) : M A := ([], Err err).
Definition panic {A} (msg : string) : M A := ([], Panic msg).
Definition tell (ev : event) : M unit := ([ev], Ok tt).

Definition bind {A B} (m : M A) (k : A -> M B) : M B :=
  match m with
  | (t, Ok a) => let (t', o) := k a in ((t ++ t')%list, o)
  | (t, Err err) => (t, Err err)
  | (t, Panic msg) => (t, Panic msg)
  end.

Declare Scope go_scope.
Delimit Scope go_scope with go.
Notation "x <- m ;; k" := (bind m (fun x => k))
  (at level 61, m at next level, right associativity) : go_scope.
Notation "m ;; k" := (bind m (fun _ => k))
  (at level 61, right associativity) : go_scope.
Open Scope go_scope.

(** Go's [append(s, x)] *)
Definition append {A} (s : list A) (x : A) : list A := (s ++ [x])%list.

(** Inside a function body a block either falls through with the updated
    local or returns from the function. *)
Inductive flow (A R : Type) : Type :=
| Continue (a : A)
| Return (r : R).
Arguments Continue {A R} a.
Arguments Return {A R} r.

(* ------------------------------------------------------------------ *)
(** ** Package image *)

Record implicitReference : Type := mkImplicitReference
  { ref_ : name.Reference }.

(** [implicitReference.TagName] *)
Definition TagName (r : implicitReference) : string :=
  match ref_ r with
  | name.Tag _ t => t          (* t.TagStr() *)
  | name.Digest _ _ => ""
  end.

(** [implicitReference.RepositoryName] *)
Definition RepositoryName (r : implicitReference) : string :=
  let ctx := name.Context (ref_ r) in
  let reg := name.RegistryStr ctx in
  let repo := name.RepositoryStr ctx in
  if negb (reg =? name.DefaultRegistry) then
    Sprintf2 "/" reg repo
  else
    strings.TrimPrefix repo "library/".

Definition notMultiArch : string :=
  "Ignored --platform as the image is not multi-arch".

Section image.

(** The image handle and the manifest index are interface values of the
    registry client; the package only passes them around. *)
Variable v1_Image : Type.
Variable v1_ImageIndex : Type.

(** [token.GetToken(ctx, domain, option)] *)
Variable token_GetToken : string -> types.DockerOption -> authn.Basic.
(** [remote.Index(ref, options...)] *)
Variable remote_Index :
  name.Reference -> list remote.Option -> error + v1_ImageIndex.
(** [index.IndexManifest()] *)
Variable ImageIndex_IndexManifest : v1_ImageIndex -> error + v1.IndexManifest.
(** [v1.ParsePlatform(s)] *)
Variable v1_ParsePlatform : string -> error + v1.Platform.
(** [remote.Get(ref, options...)] *)
Variable remote_Get :
  name.Reference -> list remote.Option -> error + remote.Descriptor.
(** [desc.Image()] *)
Variable Descriptor_Image : remote.Descriptor -> error + v1_Image.

Record remoteImage : Type := mkRemoteImage
  { name_ : string;
    ref : implicitReference;
    descriptor : remote.Descriptor;
    Image : v1_Image }.

(** [remoteImage.Name] *)
Definition Name (img : remoteImage) : string := name_ img.

(** [remoteImage.RepoTags] *)
Definition RepoTags (img : remoteImage) : list string :=
  let tag := TagName (ref img) in
  if tag =? "" then []
  else [Sprintf2 ":" (RepositoryName (ref img)) tag].

(** [remoteImage.RepoDigests] *)
Definition RepoDigests (img : remoteImage) : list string :=
  let repoDigest :=
    Sprintf2 "@" (RepositoryName (ref img))
             (v1.Hash_String (remote.Digest (descriptor img))) in
  [repoDigest].

(** [parsePlatform] *)
Definition parsePlatform (ref : name.Reference) (p : string)
  : M (option v1.Platform) :=
  blk <- (if strings.HasPrefix p "*/" then
            tell (CallIndex ref []) ;;
            match remote_Index ref [] with
            | inl err =>
                if isErrSchema1 err then
                  tell (LogDebug notMultiArch) ;;
                  ret (Return None)
                else fail (Errorf "remote index error" err)
            | inr index =>
                tell CallIndexManifest ;;
                match ImageIndex_IndexManifest index with
                | inl err => fail (Errorf "remote index manifest error" err)
                | inr m =>
                    if Nat.eqb (List.length (v1.Manifests m)) 0 then
                      tell (LogDebug notMultiArch) ;;
                      ret (Return None)
                    else
                      match nth_error (v1.Manifests m) 0 with
                      | None => panic "index out of range"
                      | Some m0 =>
                          match v1.Platform_ m0 with
                          | Some pl =>
                              ret (Continue (v1.OS pl ++ strings.TrimPrefix p "*"))
                          | None => ret (Continue p)
                          end
                      end
                end
            end
          else ret (Continue p)) ;;
  match blk with
  | Return r => ret r
  | Continue p =>
      match v1_ParsePlatform p with
      | inl err => fail (Errorf "platform parse error" err)
      | inr platform => ret (Some platform)
      end
  end.

(** [tryRemote] *)
Definition tryRemote (imageName : string) (ref : name.Reference)
           (option : types.DockerOption) : M remoteImage :=
  let remoteOpts : list remote.Option := [] in
  let remoteOpts :=
    if types.InsecureSkipTLSVerify option then
      let t := http.mkTransport (Some (tls.mkConfig true)) in
      append remoteOpts (remote.WithTransport t)
    else remoteOpts in
  remoteOpts <- (if negb (types.Platform option =? "") then
                   s <- parsePlatform ref (types.Platform option) ;;
                   match s with
                   | None => panic "invalid memory address or nil pointer dereference"
                   | Some s => ret (append remoteOpts (remote.WithPlatform s))
                   end
                 else ret remoteOpts) ;;
  let domain := name.RegistryStr (name.Context ref) in
  let auth := token_GetToken domain option in
  let remoteOpts :=
    if negb (authn.Username auth =? "") && negb (authn.Password auth =? "") then
      append remoteOpts (remote.WithAuth (authn.OfBasic auth))
    else if negb (types.RegistryToken option =? "") then
      let bearer := authn.mkBearer (types.RegistryToken option) in
      append remoteOpts (remote.WithAuth (authn.OfBearer bearer))
    else
      append remoteOpts (remote.WithAuthFromKeychain authn.DefaultKeychain) in
  tell (CallGet ref remoteOpts) ;;
  match remote_Get ref remoteOpts with
  | inl err => fail err
  | inr desc =>
      tell (CallImage desc) ;;
      match Descriptor_Image desc with
      | inl err => fail err
      | inr img =>
          ret {| name_ := imageName;
                 Image := img;
                 ref := {| ref_ := ref |};
                 descriptor := desc |}
      end
  end.

(** Names for parts of the two bodies, used to state what they do: how
    [parsePlatform] ends once it reaches [v1.ParsePlatform] (lines 97-101),
    and the three stages of [tryRemote]: the connection options collected
    before the credential (lines 22-36), the credential option (lines
    38-48) and the two registry calls followed by the wrapping (lines
    50-66). *)
Definition parseResult (p : string) : outcome (option v1.Platform) :=
  match v1_ParsePlatform p with
  | inl err => Err (Errorf "platform parse error" err)
  | inr platform => Ok (Some platform)
  end.

Definition tlsOptions (option : types.DockerOption) : list remote.Option :=
  if types.InsecureSkipTLSVerify option then
    append [] (remote.WithTransport (http.mkTransport (Some (tls.mkConfig true))))
  else [].

Definition platformStage (ref : name.Reference) (option : types.DockerOption)
  : M (list remote.Option) :=
  if negb (types.Platform option =? "") then
    s <- parsePlatform ref (types.Platform option) ;;
    match s with
    | None => panic "invalid memory address or nil pointer dereference"
    | Some s => ret (append (tlsOptions option) (remote.WithPlatform s))
    end
  else ret (tlsOptions option).

Definition credentialOption (ref : name.Reference) (option : types.DockerOption)
  : remote.Option :=
  let auth := token_GetToken (name.RegistryStr (name.Context ref)) option in
  if negb (authn.Username auth =? "") && negb (authn.Password auth =? "") then
    remote.WithAuth (authn.OfBasic auth)
  else if negb (types.RegistryToken option =? "") then
    remote.WithAuth (authn.OfBearer (authn.mkBearer (types.RegistryToken option)))
  else remote.WithAuthFromKeychain authn.DefaultKeychain.

Definition fetchStage (imageName : string) (ref : name.Reference)
           (remoteOpts : list remote.Option) : M remoteImage :=
  tell (CallGet ref remoteOpts) ;;
  match remote_Get ref remoteOpts with
  | inl err => fail err
  | inr desc =>
      tell (CallImage desc) ;;
      match Descriptor_Image desc with
      | inl err => fail err
      | inr img =>
          ret {| name_ := imageName;
                 Image := img;
                 ref := {| ref_ := ref |};
                 descriptor := desc |}
      end
  end.

(** The paths through [parsePlatform]: which answers of the registry
    lead where. *)
Inductive parsePlatformPath (ref : name.Reference) (p : string)
  : M (option v1.Platform) -> Prop :=
| PathPlain :
    strings.HasPrefix p "*/" = false ->
    parsePlatformPath ref p ([], parseResult p)
| PathSchema1 err :
    strings.HasPrefix p "*/" = true ->
    remote_Index ref [] = inl err ->
    isErrSchema1 err = true ->
    parsePlatformPath ref p
      ([CallIndex ref []; LogDebug notMultiArch], Ok None)
| PathIndexError err :
    strings.HasPrefix p "*/" = true ->
    remote_Index ref [] = inl err ->
    isErrSchema1 err = false ->
    parsePlatformPath ref p
      ([CallIndex ref []], Err (Errorf "remote index error" err))
| PathManifestError index err :
    strings.HasPrefix p "*/" = true ->
    remote_Index ref [] = inr index ->
    ImageIndex_IndexManifest index = inl err ->
    parsePlatformPath ref p
      ([CallIndex ref []; CallIndexManifest],
       Err (Errorf "remote index manifest error" err))
| PathEmptyIndex index m :
    strings.HasPrefix p "*/" = true ->
    remote_Index ref [] = inr index ->
    ImageIndex_IndexManifest index = inr m ->
    v1.Manifests m = [] ->
    parsePlatformPath ref p
      ([CallIndex ref []; CallIndexManifest; LogDebug notMultiArch], Ok None)
| PathFirstOS index m m0 rest pl :
    strings.HasPrefix p "*/" = true ->
    remote_Index ref [] = inr index ->
    ImageIndex_IndexManifest index = inr m ->
    v1.Manifests m = m0 :: rest ->
    v1.Platform_ m0 = Some pl ->
    parsePlatformPath ref p
      ([CallIndex ref []; CallIndexManifest],
       parseResult (v1.OS pl ++ strings.TrimPrefix p "*"))
| PathFirstBare index m m0 rest :
    strings.HasPrefix p "*/" = true ->
    remote_Index ref [] = inr index ->
    ImageIndex_IndexManifest index = inr m ->
    v1.Manifests m = m0 :: rest ->
    v1.Platform_ m0 = None ->
    parsePlatformPath ref p
      ([CallIndex ref []; CallIndexManifest], parseResult p).

End image.

Arguments name_ {v1_Image} r.
Arguments ref {v1_Image} r.
Arguments descriptor {v1_Image} r.
Arguments Image {v1_Image} r.
Arguments Name {v1_Image} img.
Arguments RepoTags {v1_Image} img.
Arguments RepoDigests {v1_Image} img.
Arguments parsePlatform {v1_ImageIndex}.
Arguments platformStage {v1_ImageIndex}.
Arguments fetchStage {v1_Image}.
Arguments tryRemote {v1_Image v1_ImageIndex}.
Arguments parsePlatformPath {v1_ImageIndex}.

(** The options of a list that constrain the platform, and those that
    carry a credential. *)
Definition platformOptions (opts : list remote.Option) : list remote.Option :=
  filter remote.isPlatformOption opts.

Definition authOptions (opts : list remote.Option) : list remote.Option :=
  filter remote.isAuthOption opts.

Definition isCallIndex (ev : event) : bool :=
  match ev with
  | CallIndex _ _ => true
  | _ => false
  end.

(** The index fetches of a run. *)
Definition indexCalls (t : list event) : list event := filter isCallIndex t.

(** The option lists handed to [remote.Get] in a run. *)
Fixpoint getCalls (t : list event) : list (list remote.Option) :=
  match t with
  | [] => []
  | CallGet _ opts :: t' => opts :: getCalls t'
  | _ :: t' => getCalls t'
  end.

(** The descriptors [desc.Image] was called on in a run. *)
Fixpoint imageCalls (t : list event) : list remote.Descriptor :=
  match t with
  | [] => []
  | CallImage desc :: t' => desc :: imageCalls t'
  | _ :: t' => imageCalls t'
  end.

Definition isTransportOption (o : remote.Option) : bool :=
  match o with
  | remote.WithTransport _ => true
  | _ => false
  end.

(** The options of a list that replace the transport. *)
Definition transportOptions (opts : list remote.Option) : list remote.Option :=
  filter isTransportOption opts.

(** [&http.Transport{TLSClientConfig: &tls.Config{InsecureSkipVerify: true}}] *)
Definition insecureTransport : http.Transport :=
  http.mkTransport (Some (tls.mkConfig true)).

(** An error value built by [xerrors.Errorf]. *)
Definition isWrapped (err : error) : Prop :=
  exists context cause, err = Errorf context cause.

(* ------------------------------------------------------------------ *)
(** ** A registry to run the package against

    A stand-in for the registry client whose answers depend on the
    registry of the reference, so that every path of the package can be
    executed. *)

Module fake.

(** Cuts [s] at every ["/"]; [acc] is the current part, reversed. *)
Fixpoint splitSlash (acc : string) (s : string) : list string :=
  match s with
  | EmptyString => [acc]
  | String c s' =>
      if Ascii.eqb c "/" then acc :: splitSlash "" s'
      else splitSlash (acc ++ String c "") s'
  end.

Definition ParsePlatform (s : string) : error + v1.Platform :=
  match splitSlash "" s with
  | [os] => inr (v1.mkPlatform "" os "" "")
  | [os; arch] => inr (v1.mkPlatform arch os "" "")
  | [os; arch; variant] => inr (v1.mkPlatform arch os "" variant)
  | _ => inl (ErrorString ("too many slashes in platform spec: " ++ s))
  end.

Definition GetToken (domain : string) (option : types.DockerOption) : authn.Basic :=
  authn.mkBasic (types.Username option) (types.Password option).

Definition Index (ref : name.Reference) (opts : list remote.Option)
  : error + string :=
  let reg := name.RegistryStr (name.Context ref) in
  if reg =? "legacy.example.com" then
    inl (ErrSchema1 "application/vnd.docker.distribution.manifest.v1+json")
  else if reg =? "down.example.com" then
    inl (ErrorString "connection refused")
  else inr reg.

Definition entry (os arch : string) : v1.Descriptor :=
  v1.mkDescriptor "application/vnd.oci.image.manifest.v1+json" 528
                  (v1.mkHash "sha256" "0a1b") (Some (v1.mkPlatform arch os "" "")).

Definition attestation : v1.Descriptor :=
  v1.mkDescriptor "application/vnd.oci.image.manifest.v1+json" 566
                  (v1.mkHash "sha256" "9f8e") None.

Definition IndexManifest (index : string) : error + v1.IndexManifest :=
  if index =? "empty.example.com" then inr (v1.mkIndexManifest 2 [])
  else if index =? "broken.example.com" then inl (ErrorString "unexpected EOF")
  else if index =? "bare.example.com" then
    inr (v1.mkIndexManifest 2 [attestation; entry "linux" "arm64"])
  else inr (v1.mkIndexManifest 2 [entry "linux" "amd64"; entry "windows" "amd64"]).

Definition Get (ref : name.Reference) (opts : list remote.Option)
  : error + remote.Descriptor :=
  let reg := name.RegistryStr (name.Context ref) in
  if reg =? "down.example.com" then inl (ErrorString "connection refused")
  else if reg =? "private.example.com" then
    match authOptions opts with
    | [remote.WithAuth _] =>
        inr (remote.mkDescriptor
               (v1.mkDescriptor "application/vnd.oci.image.manifest.v1+json" 1024
                                (v1.mkHash "sha256" "77aa") None) "{}")
    | _ => inl (ErrorString "UNAUTHORIZED: authentication required")
    end
  else
    inr (remote.mkDescriptor
           (v1.mkDescriptor "application/vnd.oci.image.manifest.v1+json" 1024
                            (v1.mkHash "sha256" "abcd") None)
           (if reg =? "corrupt.example.com" then "" else "{}")).

Definition Image (desc : remote.Descriptor) : error + string :=
  if remote.Manifest desc =? "" then inl (ErrorString "unexpected end of JSON input")
  else inr ("image@" ++ v1.Hash_String (remote.Digest desc)).

Definition parsePlatform := parsePlatform Index IndexManifest ParsePlatform.
Definition tryRemote :=
  tryRemote GetToken Index IndexManifest ParsePlatform Get Image.

Definition alpine : name.Reference :=
  name.Tag (name.mkRepository name.DefaultRegistry "library/alpine") "3.18".

Definition app : name.Reference :=
  name.Digest (name.mkRepository "myregistry.io" "team/app") "sha256:abcd".

Definition at_ (registry : string) : name.Reference :=
  name.Tag (name.mkRepository registry "team/app") "latest".

Definition anonymous : types.DockerOption := types.mkDockerOption "" "" "" false "".

Definition tokenOnly : types.DockerOption :=
  types.mkDockerOption "" "" "tok" false "".

Definition allSet : types.DockerOption :=
  types.mkDockerOption "alice" "s3cret" "tok" false "".

Definition anyOS (arch : string) : types.DockerOption :=
  types.mkDockerOption "" "" "" false ("*/" ++ arch).

Definition anyOSInsecure (arch : string) : types.DockerOption :=
  types.mkDockerOption "alice" "s3cret" "tok" true ("*/" ++ arch).

Definition fetched : remote.Descriptor :=
  remote.mkDescriptor
    (v1.mkDescriptor "application/vnd.oci.image.manifest.v1+json" 1024
                     (v1.mkHash "sha256" "abcd") None) "{}".

Definition linuxArm64 : v1.Platform := v1.mkPlatform "arm64" "linux" "" "".

Definition onLinuxArm64 : types.DockerOption :=
  types.mkDockerOption "" "" "" false "linux/arm64".

(** The options of the fetch under [anyOSInsecure "arm64"]. *)
Definition allOptions : list remote.Option :=
  [remote.WithTransport insecureTransport;
   remote.WithPlatform linuxArm64;
   remote.WithAuth (authn.OfBasic (authn.mkBasic "alice" "s3cret"))].

End fake.

(** The stand-in registry behind a [token.GetToken] that has a registry
    helper. *)
Module fakeHelper.

(** A [token.GetToken] with a registry helper behind it: explicit
    credentials are handed back, and for the registry the helper knows it
    answers with a pair of its own. *)
Definition GetToken (domain : string) (option : types.DockerOption)
  : authn.Basic :=
  if negb (types.Username option =? "") || negb (types.Password option =? "")
  then authn.mkBasic (types.Username option) (types.Password option)
  else if domain =? "123456789012.dkr.ecr.us-east-1.amazonaws.com"
       then authn.mkBasic "AWS" "ecr-token"
       else authn.mkBasic "" "".

Definition tryRemote :=
  tryRemote GetToken fake.Index fake.IndexManifest fake.ParsePlatform
            fake.Get fake.Image.

Definition registry : name.Reference :=
  fake.at_ "123456789012.dkr.ecr.us-east-1.amazonaws.com".

End fakeHelper.

(* ------------------------------------------------------------------ *)
(** ** github.com/google/licenseclassifier/v2 *)

Module classifier.

Record Match : Type := mkMatch
  { Name : string;
    Confidence : PrimFloat.float;   (* float64 *)
    MatchType : string;
    Variant : string;
    StartLine : Z;
    EndLine : Z }.

Record Results : Type := mkResults
  { Matches : list Match;
    TotalInputLines : Z }.

End classifier.

(* ------------------------------------------------------------------ *)
(** ** Package licensing

    [Classify] and [initGoogleClassifier].  The package keeps two
    variables, the classifier [cf] and the [sync.Once] that guards its
    loading; they are threaded through the calls as [globals].  The reader,
    the classifier's methods, [%q] quoting and the two [types.LicenseType]
    constants are variables of the section. *)

Module licensing.

Import PrimFloat.

(** The binary64 value of the literal [0.9]. *)
Definition threshold : PrimFloat.float := 0x1.ccccccccccccdp-1%float.

(** [types.LicenseFinding], the fields [Classify] sets. *)
Record LicenseFinding : Type := mkLicenseFinding
  { Name : string;
    Confidence : PrimFloat.float;
    Link : string }.

(** [types.LicenseFile], the fields [Classify] sets; [Type] is a
    [types.LicenseType], a string type whose zero value is [""]. *)
Record LicenseFile : Type := mkLicenseFile
  { Type_ : string;
    FilePath : string;
    Findings : list LicenseFinding }.

Inductive event : Type :=
| Debug (msg : string)
| LoadDefaultClassifier.

(** The locals of the loop of [Classify]; [seen] is a map used as a set. *)
Record locals : Type := mkLocals
  { findings : list LicenseFinding;
    matchType : string;
    seen : list string }.

Definition inSeen (name : string) (seen : list string) : bool :=
  existsb (String.eqb name) seen.

Section licensing.

Variable Classifier : Type.
Variable Reader : Type.
(** [types.LicenseTypeHeader], [types.LicenseTypeFile] *)
Variable LicenseTypeHeader : string.
Variable LicenseTypeFile : string.
(** [io.ReadAll(r)]: what was read, and the error if any *)
Variable io_ReadAll : Reader -> string * option error.
(** [assets.DefaultClassifier()]: the pointer and the error it answers with *)
Variable assets_DefaultClassifier : option Classifier * option error.
(** [cf.Normalize(in)], [cf.Match(in)], on the pointer [cf]; the methods
    read the classifier they are called on, so [Classify] reaches them
    with a loaded one only and panics on a nil [cf] *)
Variable Classifier_Normalize : option Classifier -> string -> string.
Variable Classifier_Match : option Classifier -> string -> classifier.Results.
(** the [%q] verb on a string *)
Variable strconv_Quote : string -> string.

Record globals : Type := mkGlobals
  { cf : option Classifier;
    classifierOnce : bool }.     (* whether [classifierOnce.Do] has run *)

(** The package variables before any call. *)
Definition start : globals := {| cf := None; classifierOnce := false |}.

(** [initGoogleClassifier] *)
Definition initGoogleClassifier (g : globals)
  : list event * globals * option error :=
  let err : option error := None in
  if classifierOnce g then ([], g, err)
  else
    let (c, err) := assets_DefaultClassifier in
    ([Debug "Loading the the default license classifier...";
      LoadDefaultClassifier],
     {| cf := c; classifierOnce := true |}, err).

(** One turn of the loop over [result.Matches]. *)
Definition loopBody (st : locals) (m : classifier.Match) : locals :=
  if PrimFloat.leb (classifier.Confidence m) threshold then st
  else if inSeen (classifier.Name m) (seen st) then st
  else
    let seen := classifier.Name m :: seen st in
    let matchType :=
      if classifier.MatchType m =? "Header" then LicenseTypeHeader
      else if classifier.MatchType m =? "License" then LicenseTypeFile
      else matchType st in
    let licenseLink :=
      "https://spdx.org/licenses/" ++ classifier.Name m ++ ".html" in
    {| findings :=
         append (findings st)
                {| Name := classifier.Name m;
                   Confidence := classifier.Confidence m;
                   Link := licenseLink |};
       matchType := matchType;
       seen := seen |}.

(** The loop, from the locals as they are declared. *)
Definition classifyLoop (matches : list classifier.Match) : locals :=
  fold_left loopBody matches {| findings := []; matchType := ""; seen := [] |}.

(** [Classify] *)
Definition Classify (filePath : string) (r : Reader) (g : globals)
  : list event * globals * outcome LicenseFile :=
  let (content, err) := io_ReadAll r in
  match err with
  | Some err =>
      ([], g,
       Err (Errorf ("unable to read a license file " ++ strconv_Quote filePath)
                   err))
  | None =>
      let '(t, g, err) := initGoogleClassifier g in
      match err with
      | Some err => (t, g, Err err)
      | None =>
          match cf g with
          | None =>
              (* cf.Normalize on a nil *Classifier *)
              (t, g, Panic "invalid memory address or nil pointer dereference")
          | Some _ =>
              let result :=
                Classifier_Match (cf g) (Classifier_Normalize (cf g) content) in
              let st := classifyLoop (classifier.Matches result) in
              (t, g,
               Ok {| Type_ := matchType st;
                     FilePath := filePath;
                     Findings := findings st |})
          end
      end
  end.

(** A sequence of [Classify] calls, one after the other on the same
    package variables: the events of all of them and the answers in
    order. *)
Fixpoint session (calls : list (string * Reader)) (g : globals)
  : list event * globals * list (outcome LicenseFile) :=
  match calls with
  | [] => ([], g, [])
  | (filePath, r) :: calls' =>
      let '(t, g, o) := Classify filePath r g in
      let '(t', g, os) := session calls' g in
      ((t ++ t')%list, g, o :: os)
  end.

End licensing.

Arguments cf {Classifier} g.
Arguments classifierOnce {Classifier} g.
Arguments start {Classifier}.
Arguments initGoogleClassifier {Classifier}.
Arguments Classify {Classifier Reader}.
Arguments session {Classifier Reader}.

Definition isLoad (ev : event) : bool :=
  match ev with
  | LoadDefaultClassifier => true
  | _ => false
  end.

(** A match the loop does not skip for its confidence. *)
Definition confident (m : classifier.Match) : bool :=
  negb (PrimFloat.leb (classifier.Confidence m) threshold).

(** What the loop keeps between [seen] and [findings]. *)
Definition loopInvariant (st : locals) : Prop :=
  NoDup (map Name (findings st))
  /\ forall n, In n (seen st) <-> In n (map Name (findings st)).

(** The link the loop builds for a license name. *)
Definition spdxLink (name : string) : string :=
  "https://spdx.org/licenses/" ++ name ++ ".html".

End licensing.

(** A classifier to run [Classify] against: the reader is its content,
    the classifier a table from contents to matches. *)
Module fakeLicense.

Import PrimFloat.

Definition ReadAll (r : string) : string * option error :=
  if r =? "<closed>" then ("", Some (ErrorString "read on closed file"))
  else (r, None).

Definition Normalize (c : option unit) (content : string) : string := content.

Definition mit (conf : PrimFloat.float) (kind : string) : classifier.Match :=
  classifier.mkMatch "MIT" conf kind "MIT.txt" 1 20.

Definition apache (conf : PrimFloat.float) (kind : string) : classifier.Match :=
  classifier.mkMatch "Apache-2.0" conf kind "Apache-2.0.txt" 1 200.

Definition apacheLow : classifier.Match := apache 0.5%float "License".
Definition mitFile : classifier.Match := mit 0.9375%float "License".
Definition apacheHeader : classifier.Match := apache 0.96875%float "Header".
Definition apacheFile : classifier.Match := apache 0.96875%float "License".
Definition mitHeader : classifier.Match := mit 1%float "Header".
Definition copyright : classifier.Match :=
  classifier.mkMatch "Copyright" 1%float "Copyright" "" 3 3.

Definition matches : list classifier.Match :=
  [ apache 0.5%float "Header";
    mit 0.9375%float "License";
    apache 0.96875%float "Header";
    mit 1%float "Header";
    classifier.mkMatch "Copyright" 1%float "Copyright" "" 3 3 ].

Definition Match (c : option unit) (content : string) : classifier.Results :=
  if content =? "" then classifier.mkResults [] 0
  else classifier.mkResults matches 200.

Definition Quote (s : string) : string :=
  String (ascii_of_nat 34) (s ++ String (ascii_of_nat 34) "").

Definition Classify :=
  licensing.Classify "header" "license-file" ReadAll (Some tt, None)
                     Normalize Match Quote.

Definition loading : list licensing.event :=
  [licensing.Debug "Loading the the default license classifier...";
   licensing.LoadDefaultClassifier].

Definition loaded : licensing.globals unit :=
  licensing.mkGlobals unit (Some tt) true.

Definition found (name : string) (conf : PrimFloat.float)
  : licensing.LicenseFinding :=
  licensing.mkLicenseFinding name conf
    ("https://spdx.org/licenses/" ++ name ++ ".html").

(** What [Classify] answers with on the table above. *)
Definition classified : licensing.LicenseFile :=
  licensing.mkLicenseFile "header" "LICENSE"
    [found "MIT" 0.9375%float; found "Apache-2.0" 0.96875%float;
     found "Copyright" 1%float].

Definition foundApache : licensing.LicenseFinding :=
  found "Apache-2.0" 0.96875%float.

(** The same with a default classifier that fails to load. *)
Definition ClassifyBroken :=
  licensing.Classify "header" "license-file" ReadAll
                     (None, Some (ErrorString "assets: not found"))
                     Normalize Match Quote.

Definition session :=
  licensing.session "header" "license-file" ReadAll (Some tt, None)
                    Normalize Match Quote.

(** A second table, in which no typed match follows the Apache header. *)
Definition notice : list classifier.Match :=
  [apacheLow; mitFile; apacheHeader; copyright].

Definition MatchNotice (c : option unit) (content : string)
  : classifier.Results :=
  classifier.mkResults notice 40.

Definition ClassifyNotice :=
  licensing.Classify "header" "license-file" ReadAll (Some tt, None)
                     Normalize MatchNotice Quote.

Definition classifyLoop := licensing.classifyLoop "header" "license-file".

End fakeLicense.

(* ------------------------------------------------------------------ *)
(** ** Strings *)

Lemma slice_from_app (p r : string) :
  strings.slice_from (String.length p) (p ++ r) = r.
Proof. induction p as [|c p IH]; simpl; auto. Qed.

Lemma HasPrefix_app (p r : string) : strings.HasPrefix (p ++ r) p = true.
Proof.
  unfold strings.HasPrefix.
  induction p as [|c p IH]; simpl.
  - destruct r; reflexivity.
  - destruct (ascii_dec c c) as [_|ne]; [exact IH | now elim ne].
Qed.

Lemma TrimPrefix_app (p r : string) : strings.TrimPrefix (p ++ r) p = r.
Proof.
  unfold strings.TrimPrefix.
  now rewrite HasPrefix_app, slice_from_app.
Qed.

Lemma TrimPrefix_without (s p : string) :
  strings.HasPrefix s p = false -> strings.TrimPrefix s p = s.
Proof. unfold strings.TrimPrefix. now intros ->. Qed.

Lemma eqb_empty_false (s : string) : s <> "" -> (s =? "") = false.
Proof. intros H. now apply String.eqb_neq. Qed.

(* ------------------------------------------------------------------ *)
(** ** Sequencing *)

Lemma bind_Ok_inv {A B} (m : M A) (k : A -> M B) (b : B) :
  result (bind m k) = Ok b ->
  exists a, result m = Ok a /\ result (k a) = Ok b.
Proof.
  destruct m as [t [a|e|msg]]; simpl; try discriminate.
  destruct (k a) as [t' o] eqn:E. simpl. intros ->.
  exists a. now rewrite E.
Qed.

(* ------------------------------------------------------------------ *)
(** ** The two functions, path by path *)

Section paths.

Variable v1_Image : Type.
Variable v1_ImageIndex : Type.
Variable token_GetToken : string -> types.DockerOption -> authn.Basic.
Variable remote_Index :
  name.Reference -> list remote.Option -> error + v1_ImageIndex.
Variable ImageIndex_IndexManifest : v1_ImageIndex -> error + v1.IndexManifest.
Variable v1_ParsePlatform : string -> error + v1.Platform.
Variable remote_Get :
  name.Reference -> list remote.Option -> error + remote.Descriptor.
Variable Descriptor_Image : remote.Descriptor -> error + v1_Image.

Local Abbreviation parsePlatform' :=
  (parsePlatform remote_Index ImageIndex_IndexManifest v1_ParsePlatform).
Local Abbreviation parseResult' := (parseResult v1_ParsePlatform).
Local Abbreviation platformStage' :=
  (platformStage remote_Index ImageIndex_IndexManifest v1_ParsePlatform).
Local Abbreviation credentialOption' := (credentialOption token_GetToken).
Local Abbreviation fetchStage' := (fetchStage remote_Get Descriptor_Image).
Local Abbreviation tryRemote' :=
  (tryRemote token_GetToken remote_Index ImageIndex_IndexManifest
             v1_ParsePlatform remote_Get Descriptor_Image).

Lemma parsePlatform_plain (ref : name.Reference) (p : string) :
  strings.HasPrefix p "*/" = false ->
  parsePlatform' ref p = ([], parseResult' p).
Proof.
  intros H. unfold parsePlatform, parseResult. rewrite H. simpl.
  now destruct (v1_ParsePlatform p).
Qed.

Lemma parsePlatform_schema1 (ref : name.Reference) (p : string) (err : error) :
  strings.HasPrefix p "*/" = true ->
  remote_Index ref [] = inl err ->
  isErrSchema1 err = true ->
  parsePlatform' ref p = ([CallIndex ref []; LogDebug notMultiArch], Ok None).
Proof.
  intros H HI HS. unfold parsePlatform. now rewrite H, HI, HS.
Qed.

Lemma parsePlatform_index_error (ref : name.Reference) (p : string) (err : error) :
  strings.HasPrefix p "*/" = true ->
  remote_Index ref [] = inl err ->
  isErrSchema1 err = false ->
  parsePlatform' ref p =
    ([CallIndex ref []], Err (Errorf "remote index error" err)).
Proof.
  intros H HI HS. unfold parsePlatform. now rewrite H, HI, HS.
Qed.

Lemma parsePlatform_manifest_error (ref : name.Reference) (p : string)
      (index : v1_ImageIndex) (err : error) :
  strings.HasPrefix p "*/" = true ->
  remote_Index ref [] = inr index ->
  ImageIndex_IndexManifest index = inl err ->
  parsePlatform' ref p =
    ([CallIndex ref []; CallIndexManifest],
     Err (Errorf "remote index manifest error" err)).
Proof.
  intros H HI HM. unfold parsePlatform. now rewrite H, HI, HM.
Qed.

Lemma parsePlatform_empty_index (ref : name.Reference) (p : string)
      (index : v1_ImageIndex) (m : v1.IndexManifest) :
  strings.HasPrefix p "*/" = true ->
  remote_Index ref [] = inr index ->
  ImageIndex_IndexManifest index = inr m ->
  v1.Manifests m = [] ->
  parsePlatform' ref p =
    ([CallIndex ref []; CallIndexManifest; LogDebug notMultiArch], Ok None).
Proof.
  intros H HI HM HE. unfold parsePlatform. now rewrite H, HI, HM, HE.
Qed.

Lemma parsePlatform_first_os (ref : name.Reference) (p : string)
      (index : v1_ImageIndex) (m : v1.IndexManifest)
      (m0 : v1.Descriptor) (rest : list v1.Descriptor) (pl : v1.Platform) :
  strings.HasPrefix p "*/" = true ->
  remote_Index ref [] = inr index ->
  ImageIndex_IndexManifest index = inr m ->
  v1.Manifests m = m0 :: rest ->
  v1.Platform_ m0 = Some pl ->
  parsePlatform' ref p =
    ([CallIndex ref []; CallIndexManifest],
     parseResult' (v1.OS pl ++ strings.TrimPrefix p "*")).
Proof.
  intros H HI HM HE HP. unfold parsePlatform, parseResult.
  rewrite H, HI, HM, HE. simpl. rewrite HP. simpl.
  now destruct (v1_ParsePlatform _).
Qed.

Lemma parsePlatform_first_bare (ref : name.Reference) (p : string)
      (index : v1_ImageIndex) (m : v1.IndexManifest)
      (m0 : v1.Descriptor) (rest : list v1.Descriptor) :
  strings.HasPrefix p "*/" = true ->
  remote_Index ref [] = inr index ->
  ImageIndex_IndexManifest index = inr m ->
  v1.Manifests m = m0 :: rest ->
  v1.Platform_ m0 = None ->
  parsePlatform' ref p =
    ([CallIndex ref []; CallIndexManifest], parseResult' p).
Proof.
  intros H HI HM HE HP. unfold parsePlatform, parseResult.
  rewrite H, HI, HM, HE. simpl. rewrite HP. simpl.
  now destruct (v1_ParsePlatform _).
Qed.

Lemma parsePlatform_path (ref : name.Reference) (p : string) :
  parsePlatformPath remote_Index ImageIndex_IndexManifest v1_ParsePlatform
                    ref p (parsePlatform' ref p).
Proof.
  destruct (strings.HasPrefix p "*/") eqn:H.
  2: { rewrite parsePlatform_plain by assumption. now constructor. }
  destruct (remote_Index ref []) as [err|index] eqn:HI.
  { destruct (isErrSchema1 err) eqn:HS.
    - erewrite parsePlatform_schema1 by eassumption. econstructor; eassumption.
    - erewrite parsePlatform_index_error by eassumption.
      econstructor; eassumption. }
  destruct (ImageIndex_IndexManifest index) as [err|m] eqn:HM.
  { erewrite parsePlatform_manifest_error by eassumption.
    econstructor; eassumption. }
  destruct (v1.Manifests m) as [|m0 rest] eqn:HE.
  { erewrite parsePlatform_empty_index by eassumption.
    econstructor; eassumption. }
  destruct (v1.Platform_ m0) as [pl|] eqn:HP.
  - erewrite parsePlatform_first_os by eassumption.
    eapply PathFirstOS; eassumption.
  - erewrite parsePlatform_first_bare by eassumption.
    eapply PathFirstBare; eassumption.
Qed.

(** The only outside calls of [parsePlatform] are the index fetch, made
    with the reference alone, and the reading of its manifest. *)
Lemma parsePlatform_events (ref : name.Reference) (p : string) (ev : event) :
  In ev (trace (parsePlatform' ref p)) ->
  ev = CallIndex ref [] \/ ev = CallIndexManifest \/ ev = LogDebug notMultiArch.
Proof.
  destruct (parsePlatform_path ref p); simpl; intuition auto.
Qed.

Lemma parseResult_no_panic (p : string) (msg : string) :
  parseResult' p <> Panic msg.
Proof. unfold parseResult. now destruct (v1_ParsePlatform p). Qed.

(** The length test guards the indexing: [parsePlatform] never panics. *)
Lemma parsePlatform_no_panic (ref : name.Reference) (p : string) (msg : string) :
  result (parsePlatform' ref p) <> Panic msg.
Proof.
  destruct (parsePlatform_path ref p); simpl;
    try discriminate; apply parseResult_no_panic.
Qed.

Lemma tryRemote_stages (imageName : string) (ref : name.Reference)
      (option : types.DockerOption) :
  tryRemote' imageName ref option =
    (opts <- platformStage' ref option ;;
     fetchStage' imageName ref (append opts (credentialOption' ref option))).
Proof.
  unfold tryRemote, platformStage, fetchStage, credentialOption, tlsOptions.
  destruct (negb (authn.Username _ =? "") && negb (authn.Password _ =? ""));
    [reflexivity|].
  destruct (negb (types.RegistryToken option =? "")); reflexivity.
Qed.

(** *** The stages of [tryRemote] *)

Lemma tlsOptions_plain (option : types.DockerOption) :
  platformOptions (tlsOptions option) = []
  /\ authOptions (tlsOptions option) = [].
Proof.
  unfold tlsOptions. now destruct (types.InsecureSkipTLSVerify option).
Qed.

Lemma platformOptions_append (opts : list remote.Option) (o : remote.Option) :
  platformOptions (append opts o) =
    (platformOptions opts ++ platformOptions [o])%list.
Proof. unfold platformOptions, append. apply filter_app. Qed.

Lemma authOptions_append (opts : list remote.Option) (o : remote.Option) :
  authOptions (append opts o) = (authOptions opts ++ authOptions [o])%list.
Proof. unfold authOptions, append. apply filter_app. Qed.

Lemma credentialOption_kind (ref : name.Reference) (option : types.DockerOption) :
  authOptions [credentialOption' ref option] = [credentialOption' ref option]
  /\ platformOptions [credentialOption' ref option] = [].
Proof.
  unfold credentialOption.
  destruct (negb (authn.Username _ =? "") && negb (authn.Password _ =? ""));
    [now split|].
  destruct (negb (types.RegistryToken option =? "")); now split.
Qed.

Lemma platformStage_empty (ref : name.Reference) (option : types.DockerOption) :
  types.Platform option = "" ->
  platformStage' ref option = ([], Ok (tlsOptions option)).
Proof. intros H. unfold platformStage. now rewrite H. Qed.

Lemma platformStage_trace (ref : name.Reference) (option : types.DockerOption) :
  trace (platformStage' ref option) =
    if types.Platform option =? "" then []
    else trace (parsePlatform' ref (types.Platform option)).
Proof.
  unfold platformStage.
  destruct (types.Platform option =? ""); simpl; [reflexivity|].
  destruct (parsePlatform' ref (types.Platform option)) as [t [[s|]|e|msg]];
    simpl; auto using app_nil_r.
Qed.

Lemma platformStage_Ok (ref : name.Reference) (option : types.DockerOption)
      (opts : list remote.Option) :
  result (platformStage' ref option) = Ok opts ->
  (types.Platform option = "" /\ opts = tlsOptions option)
  \/ (types.Platform option <> "" /\
      exists s, result (parsePlatform' ref (types.Platform option)) = Ok (Some s)
                /\ opts = append (tlsOptions option) (remote.WithPlatform s)).
Proof.
  unfold platformStage.
  destruct (types.Platform option =? "") eqn:E; simpl.
  - apply String.eqb_eq in E. intros [= <-]. now left.
  - apply String.eqb_neq in E. intros H. right. split; [exact E|].
    apply bind_Ok_inv in H as [[s|] [H1 H2]]; [|discriminate].
    exists s. split; [exact H1|]. now injection H2 as <-.
Qed.

Lemma platformStage_Err (ref : name.Reference) (option : types.DockerOption)
      (e : error) :
  result (platformStage' ref option) = Err e <->
  types.Platform option <> ""
  /\ result (parsePlatform' ref (types.Platform option)) = Err e.
Proof.
  unfold platformStage.
  destruct (types.Platform option =? "") eqn:E; simpl.
  - apply String.eqb_eq in E. split; [discriminate | now intros [H _]].
  - apply String.eqb_neq in E.
    destruct (parsePlatform' ref (types.Platform option)) as [t [[s|]|e'|msg]];
      simpl; split; try discriminate; try (now intros [_ H]);
      try (intros [= ->]; now split).
  now intros [_ [= ->]].
Qed.

Lemma platformStage_Ok_options (ref : name.Reference)
      (option : types.DockerOption) (opts : list remote.Option) :
  result (platformStage' ref option) = Ok opts ->
  authOptions opts = []
  /\ (types.Platform option = "" -> platformOptions opts = []).
Proof.
  intros H. destruct (tlsOptions_plain option) as [Hp Ha].
  apply platformStage_Ok in H as [[E ->]|[E [s [_ ->]]]].
  - now split.
  - rewrite authOptions_append, Ha. split; [reflexivity | now intros].
Qed.

Lemma fetchStage_run (imageName : string) (ref : name.Reference)
      (opts : list remote.Option) :
  fetchStage' imageName ref opts =
    match remote_Get ref opts with
    | inl err => ([CallGet ref opts], Err err)
    | inr desc =>
        match Descriptor_Image desc with
        | inl err => ([CallGet ref opts; CallImage desc], Err err)
        | inr img =>
            ([CallGet ref opts; CallImage desc],
             Ok (mkRemoteImage v1_Image imageName (mkImplicitReference ref)
                               desc img))
        end
    end.
Proof.
  unfold fetchStage. simpl.
  destruct (remote_Get ref opts) as [err|desc]; simpl; [reflexivity|].
  now destruct (Descriptor_Image desc).
Qed.

Lemma fetchStage_trace (imageName : string) (ref : name.Reference)
      (opts : list remote.Option) :
  indexCalls (trace (fetchStage' imageName ref opts)) = []
  /\ getCalls (trace (fetchStage' imageName ref opts)) = [opts]
  /\ forall r o, In (CallGet r o) (trace (fetchStage' imageName ref opts)) ->
                 r = ref /\ o = opts.
Proof.
  rewrite fetchStage_run.
  destruct (remote_Get ref opts) as [err|desc]; simpl.
  - repeat split; intros; intuition congruence.
  - destruct (Descriptor_Image desc); simpl;
      repeat split; intros; intuition congruence.
Qed.

Lemma fetchStage_no_panic (imageName : string) (ref : name.Reference)
      (opts : list remote.Option) (msg : string) :
  result (fetchStage' imageName ref opts) <> Panic msg.
Proof.
  rewrite fetchStage_run.
  destruct (remote_Get ref opts) as [err|desc]; simpl; [discriminate|].
  now destruct (Descriptor_Image desc).
Qed.

Lemma parsePlatform_getCalls (ref : name.Reference) (p : string) :
  getCalls (trace (parsePlatform' ref p)) = []
  /\ forall r o, ~ In (CallGet r o) (trace (parsePlatform' ref p)).
Proof.
  destruct (parsePlatform_path ref p); simpl; split; try reflexivity;
    intros r o H'; intuition discriminate.
Qed.

Lemma platformStage_getCalls (ref : name.Reference) (option : types.DockerOption) :
  getCalls (trace (platformStage' ref option)) = []
  /\ forall r o, ~ In (CallGet r o) (trace (platformStage' ref option)).
Proof.
  rewrite platformStage_trace.
  destruct (types.Platform option =? ""); [now split|].
  apply parsePlatform_getCalls.
Qed.

Lemma getCalls_app (t t' : list event) :
  getCalls (t ++ t') = (getCalls t ++ getCalls t')%list.
Proof.
  induction t as [|ev t IH]; simpl; [reflexivity|].
  destruct ev; simpl; now rewrite IH.
Qed.

(** How a run of [tryRemote] is made of its stages. *)
Lemma tryRemote_run (imageName : string) (ref : name.Reference)
      (option : types.DockerOption) :
  let run := tryRemote' imageName ref option in
  let stage := platformStage' ref option in
  match result stage with
  | Ok opts =>
      let fetch :=
        fetchStage' imageName ref (append opts (credentialOption' ref option)) in
      trace run = (trace stage ++ trace fetch)%list /\ result run = result fetch
  | Err e => trace run = trace stage /\ result run = Err e
  | Panic msg => trace run = trace stage /\ result run = Panic msg
  end.
Proof.
  simpl. rewrite tryRemote_stages.
  destruct (platformStage' ref option) as [t [opts|e|msg]]; simpl; auto.
  now destruct (fetchStage' _ _ _).
Qed.

Lemma tryRemote_get_call (imageName : string) (ref : name.Reference)
      (option : types.DockerOption) (r : name.Reference)
      (opts : list remote.Option) :
  In (CallGet r opts) (trace (tryRemote' imageName ref option)) ->
  r = ref
  /\ exists pre, result (platformStage' ref option) = Ok pre
                 /\ opts = append pre (credentialOption' ref option).
Proof.
  intros H. pose proof (tryRemote_run imageName ref option) as R. simpl in R.
  destruct (platformStage_getCalls ref option) as [_ N].
  destruct (result (platformStage' ref option)) as [pre|e|msg] eqn:E.
  - destruct R as [Rt _]. rewrite Rt in H.
    apply in_app_or in H as [H|H]; [now apply N in H|].
    apply fetchStage_trace in H as [-> ->]. split; [reflexivity|].
    now exists pre.
  - destruct R as [Rt _]. rewrite Rt in H. now apply N in H.
  - destruct R as [Rt _]. rewrite Rt in H. now apply N in H.
Qed.

Lemma platformStage_result (ref : name.Reference) (option : types.DockerOption) :
  result (platformStage' ref option) =
    if types.Platform option =? "" then Ok (tlsOptions option)
    else match result (parsePlatform' ref (types.Platform option)) with
         | Ok (Some s) =>
             Ok (append (tlsOptions option) (remote.WithPlatform s))
         | Ok None => Panic "invalid memory address or nil pointer dereference"
         | Err e => Err e
         | Panic msg => Panic msg
         end.
Proof.
  unfold platformStage.
  destruct (types.Platform option =? ""); simpl; [reflexivity|].
  now destruct (parsePlatform' ref (types.Platform option)) as [t [[s|]|e|msg]].
Qed.

Lemma platformStage_events (ref : name.Reference) (option : types.DockerOption)
      (ev : event) :
  In ev (trace (platformStage' ref option)) ->
  types.Platform option <> ""
  /\ In ev (trace (parsePlatform' ref (types.Platform option))).
Proof.
  rewrite platformStage_trace.
  destruct (types.Platform option =? "") eqn:E; [now intros []|].
  apply String.eqb_neq in E. now split.
Qed.

Lemma tryRemote_indexCalls (imageName : string) (ref : name.Reference)
      (option : types.DockerOption) :
  indexCalls (trace (tryRemote' imageName ref option)) =
    indexCalls (trace (platformStage' ref option)).
Proof.
  pose proof (tryRemote_run imageName ref option) as R. simpl in R.
  destruct (result (platformStage' ref option)) as [pre|e|msg];
    destruct R as [-> _]; try reflexivity.
  unfold indexCalls. rewrite filter_app.
  fold (indexCalls (trace (fetchStage' imageName ref
                             (append pre (credentialOption' ref option))))).
  rewrite (proj1 (fetchStage_trace _ _ _)). apply app_nil_r.
Qed.

(** The platform options of the fetches of a run, from the platform
    string alone. *)
Lemma tryRemote_constraint (imageName : string) (ref : name.Reference)
      (option : types.DockerOption) :
  map platformOptions (getCalls (trace (tryRemote' imageName ref option))) =
    if types.Platform option =? "" then [[]]
    else match result (parsePlatform' ref (types.Platform option)) with
         | Ok (Some s) => [[remote.WithPlatform s]]
         | _ => []
         end.
Proof.
  pose proof (tryRemote_run imageName ref option) as R. simpl in R.
  pose proof (platformStage_result ref option) as S.
  destruct (platformStage_getCalls ref option) as [G _].
  destruct (tlsOptions_plain option) as [Tp _].
  destruct (credentialOption_kind ref option) as [_ Cp].
  destruct (result (platformStage' ref option)) as [pre|e|msg];
    destruct R as [-> _]; rewrite ?getCalls_app, G; simpl.
  - rewrite (proj1 (proj2 (fetchStage_trace _ _ _))). simpl.
    rewrite platformOptions_append, Cp, app_nil_r.
    destruct (types.Platform option =? "").
    + injection S as ->. now rewrite Tp.
    + destruct (result (parsePlatform' ref (types.Platform option)))
        as [[s|]|e|msg]; try discriminate.
      injection S as ->. now rewrite platformOptions_append, Tp.
  - destruct (types.Platform option =? ""); [discriminate|].
    now destruct (result (parsePlatform' ref (types.Platform option)))
      as [[s|]|e'|msg].
  - destruct (types.Platform option =? ""); [discriminate|].
    now destruct (result (parsePlatform' ref (types.Platform option)))
      as [[s|]|e'|msg'].
Qed.

Lemma parsePlatform_Err (ref : name.Reference) (p : string) (e : error) :
  result (parsePlatform' ref p) = Err e ->
  exists cause,
    (e = Errorf "remote index error" cause
     /\ remote_Index ref [] = inl cause /\ isErrSchema1 cause = false)
    \/ (e = Errorf "remote index manifest error" cause
        /\ exists index, remote_Index ref [] = inr index
                         /\ ImageIndex_IndexManifest index = inl cause)
    \/ (e = Errorf "platform parse error" cause
        /\ exists s, v1_ParsePlatform s = inl cause).
Proof.
  assert (P : forall s, parseResult' s = Err e ->
                        exists cause, e = Errorf "platform parse error" cause
                                      /\ exists s, v1_ParsePlatform s = inl cause).
  { intros s. unfold parseResult.
    destruct (v1_ParsePlatform s) as [err|pl] eqn:E; [|discriminate].
    intros [= <-]. exists err. split; [reflexivity | now exists s]. }
  destruct (parsePlatform_path ref p); simpl; try discriminate.
  - intros H'. apply P in H' as [cause H']. exists cause. now right; right.
  - intros [= <-]. exists err. now left.
  - intros [= <-]. exists err. right; left. split; [reflexivity|].
    now exists index.
  - intros H'. apply P in H' as [cause H']. exists cause. now right; right.
  - intros H'. apply P in H' as [cause H']. exists cause. now right; right.
Qed.

Lemma parsePlatform_index_called (ref : name.Reference) (p : string) (ev : event) :
  In ev (trace (parsePlatform' ref p)) -> strings.HasPrefix p "*/" = true.
Proof. now destruct (parsePlatform_path ref p). Qed.

(** *** Credential selection *)

Lemma credentialOption_cases (ref : name.Reference)
      (option : types.DockerOption) :
  let auth := token_GetToken (name.RegistryStr (name.Context ref)) option in
  let T := types.RegistryToken option in
  (authn.Username auth <> "" /\ authn.Password auth <> "" ->
   credentialOption' ref option = remote.WithAuth (authn.OfBasic auth))
  /\ (~ (authn.Username auth <> "" /\ authn.Password auth <> "") -> T <> "" ->
      credentialOption' ref option =
        remote.WithAuth (authn.OfBearer (authn.mkBearer T)))
  /\ (~ (authn.Username auth <> "" /\ authn.Password auth <> "") -> T = "" ->
      credentialOption' ref option =
        remote.WithAuthFromKeychain authn.DefaultKeychain).
Proof.
  intros auth T. unfold credentialOption. fold auth T.
  destruct (string_dec (authn.Username auth) "") as [EU|NU].
  - rewrite EU. simpl. repeat split; try tauto; intros _ HT.
    + now rewrite (eqb_empty_false T HT).
    + now rewrite HT.
  - destruct (string_dec (authn.Password auth) "") as [EP|NP].
    + rewrite EP. simpl. rewrite andb_false_r.
      repeat split; try tauto; intros _ HT.
      * now rewrite (eqb_empty_false T HT).
      * now rewrite HT.
    + rewrite (eqb_empty_false _ NU), (eqb_empty_false _ NP). simpl.
      repeat split; tauto.
Qed.

(** C2, as the code has it: the credential handed to [remote.Get] is
    chosen by precedence on the pair [token.GetToken] answers with for the
    registry of the reference and the options: that pair as the basic
    credential when its user name and password are both non-empty;
    otherwise the bearer token of the options when one is given; otherwise
    the default keychain, which the client consults for the registry of
    the reference it is called with.  Every fetch of a run is made with
    the reference of the call and carries exactly that one credential
    option; with no platform requested the fetch is always reached.  In
    particular, with user name and password both given in the options,
    the basic credential made of them is used whenever [token.GetToken]
    hands that pair back, whatever the registry token is. *)
Theorem credential_precedence (imageName : string) (ref : name.Reference)
        (option : types.DockerOption) :
  let auth := token_GetToken (name.RegistryStr (name.Context ref)) option in
  let U := types.Username option in
  let P := types.Password option in
  let T := types.RegistryToken option in
  let run := tryRemote' imageName ref option in
  (forall r opts,
      In (CallGet r opts) (trace run) ->
      r = ref
      /\ (authn.Username auth <> "" /\ authn.Password auth <> "" ->
          authOptions opts = [remote.WithAuth (authn.OfBasic auth)])
      /\ (~ (authn.Username auth <> "" /\ authn.Password auth <> "") ->
          T <> "" ->
          authOptions opts =
            [remote.WithAuth (authn.OfBearer (authn.mkBearer T))])
      /\ (~ (authn.Username auth <> "" /\ authn.Password auth <> "") ->
          T = "" ->
          authOptions opts =
            [remote.WithAuthFromKeychain authn.DefaultKeychain])
      /\ (auth = authn.mkBasic U P -> U <> "" -> P <> "" ->
          authOptions opts =
            [remote.WithAuth (authn.OfBasic (authn.mkBasic U P))]))
  /\ (types.Platform option = "" -> exists opts, getCalls (trace run) = [opts]).
Proof.
  intros auth U P T run. split.
  - intros r opts H.
    apply tryRemote_get_call in H as [-> [pre [Hpre ->]]].
    split; [reflexivity|].
    apply platformStage_Ok_options in Hpre as [Hauth _].
    rewrite authOptions_append, Hauth.
    rewrite (proj1 (credentialOption_kind ref option)). simpl.
    destruct (credentialOption_cases ref option) as [B [K A]].
    fold auth T in B, K, A.
    split; [|split; [|split]].
    + intros H. now rewrite (B H).
    + intros H HT. now rewrite (K H HT).
    + intros H HT. now rewrite (A H HT).
    + intros E HU HP. rewrite B; [now rewrite E|].
      rewrite E. now split.
  - intros HP. subst run.
    pose proof (tryRemote_run imageName ref option) as R. simpl in R.
    rewrite (platformStage_empty ref option HP) in R. simpl in R.
    destruct R as [Rt _]. rewrite Rt.
    eexists. apply fetchStage_trace.
Qed.

(** C3, as the code has it: for a wildcard input ["*/" ++ arch], when the index lists at
    least one manifest and the first one has a platform record, the
    string handed to platform parsing is that record's OS, a ["/"] and
    [arch]; the result is what parsing makes of it, and none of the later
    entries matter. *)
Theorem wildcard_takes_first_os (ref : name.Reference) (arch : string)
        (index : v1_ImageIndex) (m : v1.IndexManifest)
        (m0 : v1.Descriptor) (rest : list v1.Descriptor) (pl : v1.Platform) :
  remote_Index ref [] = inr index ->
  ImageIndex_IndexManifest index = inr m ->
  v1.Manifests m = m0 :: rest ->
  v1.Platform_ m0 = Some pl ->
  parsePlatform' ref ("*/" ++ arch) =
    ([CallIndex ref []; CallIndexManifest],
     match v1_ParsePlatform (v1.OS pl ++ "/" ++ arch) with
     | inl err => Err (Errorf "platform parse error" err)
     | inr platform => Ok (Some platform)
     end).
Proof.
  intros HI HM HE HP.
  rewrite (parsePlatform_first_os ref ("*/" ++ arch) index m m0 rest pl
             (HasPrefix_app "*/" arch) HI HM HE HP).
  reflexivity.
Qed.

(** C4: for a wildcard input, a legacy-schema error of the index fetch and
    an index with an empty manifest list both end platform resolution with
    no constraint and no error; any other failure of the index fetch is
    returned wrapped as ["remote index error"]. *)
Theorem wildcard_not_multi_arch (ref : name.Reference) (p : string) :
  strings.HasPrefix p "*/" = true ->
  (forall err,
      remote_Index ref [] = inl err -> isErrSchema1 err = true ->
      parsePlatform' ref p =
        ([CallIndex ref []; LogDebug notMultiArch], Ok None))
  /\ (forall index m,
        remote_Index ref [] = inr index ->
        ImageIndex_IndexManifest index = inr m ->
        v1.Manifests m = [] ->
        parsePlatform' ref p =
          ([CallIndex ref []; CallIndexManifest; LogDebug notMultiArch],
           Ok None))
  /\ (forall err,
        remote_Index ref [] = inl err -> isErrSchema1 err = false ->
        parsePlatform' ref p =
          ([CallIndex ref []], Err (Errorf "remote index error" err))).
Proof.
  intros H. repeat split.
  - intros err. now apply parsePlatform_schema1.
  - intros index m. now apply parsePlatform_empty_index.
  - intros err. now apply parsePlatform_index_error.
Qed.

(** C9: for a wildcard input, when the first manifest of a non-empty
    index has no platform record, the input string itself, with its ["*"],
    is handed to platform parsing: the result is what parsing makes of it,
    never "no constraint". *)
Theorem wildcard_first_entry_without_platform (ref : name.Reference)
        (p : string) (index : v1_ImageIndex) (m : v1.IndexManifest)
        (m0 : v1.Descriptor) (rest : list v1.Descriptor) :
  strings.HasPrefix p "*/" = true ->
  remote_Index ref [] = inr index ->
  ImageIndex_IndexManifest index = inr m ->
  v1.Manifests m = m0 :: rest ->
  v1.Platform_ m0 = None ->
  parsePlatform' ref p =
    ([CallIndex ref []; CallIndexManifest],
     match v1_ParsePlatform p with
     | inl err => Err (Errorf "platform parse error" err)
     | inr platform => Ok (Some platform)
     end)
  /\ result (parsePlatform' ref p) <> Ok None.
Proof.
  intros H HI HM HE HP.
  rewrite (parsePlatform_first_bare ref p index m m0 rest H HI HM HE HP).
  split; [reflexivity|].
  unfold parseResult. simpl. now destruct (v1_ParsePlatform p).
Qed.

(** C5: a remote image that [tryRemote] returns was built from the
    descriptor [remote.Get] answered with for the reference, and its
    [RepoDigests] is the single string made of the repository name, an
    ["@"] and that descriptor's digest. *)
Theorem RepoDigests_of_fetched_descriptor (imageName : string)
        (ref : name.Reference) (option : types.DockerOption)
        (img : remoteImage v1_Image) :
  result (tryRemote' imageName ref option) = Ok img ->
  exists opts desc,
    In (CallGet ref opts) (trace (tryRemote' imageName ref option))
    /\ remote_Get ref opts = inr desc
    /\ RepoDigests img =
         [RepositoryName (mkImplicitReference ref) ++ "@"
          ++ v1.Hash_String (remote.Digest desc)]
    /\ List.length (RepoDigests img) = 1.
Proof.
  intros H.
  pose proof (tryRemote_run imageName ref option) as R. simpl in R.
  destruct (result (platformStage' ref option)) as [pre|e|msg];
    [|destruct R as [_ R]; congruence..].
  destruct R as [Rt Rr]. rewrite Rr in H. rewrite Rt.
  set (opts := append pre (credentialOption' ref option)) in *.
  rewrite fetchStage_run in H |- *.
  exists opts.
  destruct (remote_Get ref opts) as [err|desc]; [discriminate|].
  exists desc.
  destruct (Descriptor_Image desc) as [err|handle]; [discriminate|].
  simpl in H. injection H as <-.
  repeat split.
  apply in_or_app. right. now left.
Qed.

(** C7: with an empty [Platform] no index is fetched, the one fetch
    that is made carries no platform option, the run does not panic, and
    an error, if any, is the one [remote.Get] or [desc.Image] answered
    with. *)
Theorem empty_platform_no_constraint (imageName : string)
        (ref : name.Reference) (option : types.DockerOption) :
  types.Platform option = "" ->
  let run := tryRemote' imageName ref option in
  indexCalls (trace run) = []
  /\ (exists opts, getCalls (trace run) = [opts] /\ platformOptions opts = [])
  /\ (forall e, result run = Err e ->
        (exists opts, In (CallGet ref opts) (trace run)
                      /\ remote_Get ref opts = inl e)
        \/ (exists desc, In (CallImage desc) (trace run)
                         /\ Descriptor_Image desc = inl e))
  /\ (forall msg, result run <> Panic msg).
Proof.
  intros HP run. subst run.
  pose proof (tryRemote_run imageName ref option) as R. simpl in R.
  rewrite (platformStage_empty ref option HP) in R. simpl in R.
  destruct R as [Rt Rr]. rewrite Rt, Rr.
  set (opts := append (tlsOptions option) (credentialOption' ref option)).
  destruct (fetchStage_trace imageName ref opts) as [FI [FG _]].
  split; [exact FI|]. split; [|split].
  - exists opts. split; [exact FG|]. unfold opts.
    rewrite platformOptions_append, (proj1 (tlsOptions_plain option)).
    now rewrite (proj2 (credentialOption_kind ref option)).
  - intros e. rewrite fetchStage_run.
    destruct (remote_Get ref opts) as [err|desc] eqn:EG; simpl.
    + intros [= <-]. left. exists opts. split; [now left | exact EG].
    + destruct (Descriptor_Image desc) as [err|handle] eqn:EI; simpl;
        [|discriminate].
      intros [= <-]. right. exists desc. split; [right; now left | exact EI].
  - intros msg. apply fetchStage_no_panic.
Qed.

(** C8, as the code has it: errors of platform resolution come back
    wrapped with the name of the operation that failed; a failure of
    [remote.Get] or of [desc.Image] comes back as it is, not wrapped; every
    error [tryRemote] returns is one of these; and a call that was made
    and failed (the index fetch with anything but the legacy-schema error,
    the reading of the index manifest, platform parsing of the input
    itself or of the string made from the first manifest's OS, the fetch,
    the materialization) ends the run with that error. *)
Theorem error_propagation (imageName : string) (ref : name.Reference)
        (option : types.DockerOption) :
  let run := tryRemote' imageName ref option in
  let p := types.Platform option in
  (forall p' e,
      result (parsePlatform' ref p') = Err e ->
      exists cause,
        (e = Errorf "remote index error" cause
         /\ remote_Index ref [] = inl cause /\ isErrSchema1 cause = false)
        \/ (e = Errorf "remote index manifest error" cause
            /\ exists index, remote_Index ref [] = inr index
                             /\ ImageIndex_IndexManifest index = inl cause)
        \/ (e = Errorf "platform parse error" cause
            /\ exists s, v1_ParsePlatform s = inl cause))
  /\ (forall e,
        result run = Err e ->
        (p <> "" /\ result (parsePlatform' ref p) = Err e)
        \/ (exists opts, In (CallGet ref opts) (trace run)
                         /\ remote_Get ref opts = inl e)
        \/ (exists desc, In (CallImage desc) (trace run)
                         /\ Descriptor_Image desc = inl e))
  /\ (forall opts e,
        In (CallGet ref opts) (trace run) -> remote_Get ref opts = inl e ->
        result run = Err e)
  /\ (forall desc e,
        In (CallImage desc) (trace run) -> Descriptor_Image desc = inl e ->
        result run = Err e)
  /\ (forall cause,
        In (CallIndex ref []) (trace run) ->
        remote_Index ref [] = inl cause -> isErrSchema1 cause = false ->
        result run = Err (Errorf "remote index error" cause))
  /\ (forall index cause,
        In CallIndexManifest (trace run) ->
        remote_Index ref [] = inr index ->
        ImageIndex_IndexManifest index = inl cause ->
        result run = Err (Errorf "remote index manifest error" cause))
  /\ (forall cause,
        p <> "" -> strings.HasPrefix p "*/" = false ->
        v1_ParsePlatform p = inl cause ->
        result run = Err (Errorf "platform parse error" cause))
  /\ (forall index m m0 rest pl cause,
        strings.HasPrefix p "*/" = true ->
        remote_Index ref [] = inr index ->
        ImageIndex_IndexManifest index = inr m ->
        v1.Manifests m = m0 :: rest ->
        v1.Platform_ m0 = Some pl ->
        v1_ParsePlatform (v1.OS pl ++ strings.TrimPrefix p "*") = inl cause ->
        result run = Err (Errorf "platform parse error" cause))
  /\ (forall index m m0 rest cause,
        strings.HasPrefix p "*/" = true ->
        remote_Index ref [] = inr index ->
        ImageIndex_IndexManifest index = inr m ->
        v1.Manifests m = m0 :: rest ->
        v1.Platform_ m0 = None ->
        v1_ParsePlatform p = inl cause ->
        result run = Err (Errorf "platform parse error" cause)).
Proof.
  intros run p.
  pose proof (tryRemote_run imageName ref option) as R. simpl in R.
  fold run in R.
  assert (Stage : forall e,
             result (parsePlatform' ref p) = Err e ->
             p <> "" -> result run = Err e).
  { intros e He Hp.
    assert (S : result (platformStage' ref option) = Err e)
      by (apply platformStage_Err; now split).
    rewrite S in R. apply R. }
  assert (InStage : forall ev,
             In ev (trace run) ->
             (forall r o, ev <> CallGet r o) -> (forall d, ev <> CallImage d) ->
             p <> "" /\ In ev (trace (parsePlatform' ref p))).
  { intros ev Hin NG NI.
    destruct (result (platformStage' ref option)) as [pre|e|msg] eqn:S;
      destruct R as [Rt _]; rewrite Rt in Hin;
      try (now apply platformStage_events).
    apply in_app_or in Hin as [Hin|Hin]; [now apply platformStage_events|].
    rewrite fetchStage_run in Hin.
    destruct (remote_Get ref _) as [err|desc]; simpl in Hin.
    - destruct Hin as [<-|[]]. now elim (NG ref (append pre (credentialOption' ref option))).
    - destruct (Descriptor_Image desc); simpl in Hin;
        destruct Hin as [<-|[<-|[]]];
        solve [ now elim (NG ref (append pre (credentialOption' ref option)))
              | now elim (NI desc) ]. }
  assert (InFetch : forall ev,
             In ev (trace run) ->
             (exists r o, ev = CallGet r o) \/ (exists d, ev = CallImage d) ->
             exists pre,
               result run =
                 result (fetchStage' imageName ref
                           (append pre (credentialOption' ref option)))
               /\ In ev (trace (fetchStage' imageName ref
                                  (append pre (credentialOption' ref option))))).
  { intros ev Hin Kind.
    assert (NS : ~ In ev (trace (platformStage' ref option))).
    { intros Hs. apply platformStage_events in Hs as [_ Hs].
      apply parsePlatform_events in Hs.
      destruct Kind as [[r [o ->]]|[d ->]]; intuition discriminate. }
    destruct (result (platformStage' ref option)) as [pre|e|msg] eqn:S;
      destruct R as [Rt Rr]; rewrite Rt in Hin; try (now elim NS).
    apply in_app_or in Hin as [Hin|Hin]; [now elim NS|].
    exists pre. now split. }
  assert (Wild : forall q, strings.HasPrefix q "*/" = true -> q <> "").
  { intros q Hq E. rewrite E in Hq. discriminate. }
  split; [|split; [|split; [|split; [|split; [|split; [|split; [|split]]]]]]].
  - intros p' e. apply parsePlatform_Err.
  - intros e He.
    destruct (result (platformStage' ref option)) as [pre|e'|msg] eqn:S.
    + destruct R as [Rt Rr]. rewrite Rr in He. rewrite Rt.
      set (opts := append pre (credentialOption' ref option)) in *.
      rewrite fetchStage_run in He |- *. right.
      destruct (remote_Get ref opts) as [err|desc] eqn:EG; simpl in *.
      * injection He as <-. left. exists opts.
        split; [apply in_or_app; right; now left | exact EG].
      * destruct (Descriptor_Image desc) as [err|handle] eqn:EI; simpl in *;
          [|discriminate].
        injection He as <-. right. exists desc.
        split; [apply in_or_app; right; right; now left | exact EI].
    + destruct R as [_ Rr]. rewrite Rr in He. injection He as <-.
      left. now apply platformStage_Err.
    + destruct R as [_ Rr]. congruence.
  - intros opts e Hin HG.
    destruct (InFetch _ Hin) as [pre [Hr Hf]]; [left; now exists ref, opts|].
    rewrite Hr. apply fetchStage_trace in Hf as [_ <-].
    rewrite fetchStage_run. now rewrite HG.
  - intros desc e Hin HI.
    destruct (InFetch _ Hin) as [pre [Hr Hf]]; [right; now exists desc|].
    rewrite Hr. rewrite fetchStage_run in Hf |- *.
    destruct (remote_Get ref _) as [err|d]; simpl in Hf.
    + destruct Hf as [Hf|[]]; discriminate.
    + destruct (Descriptor_Image d) as [err|handle] eqn:EI; simpl in Hf;
        destruct Hf as [Hf|[Hf|[]]]; try discriminate;
        injection Hf as ->; simpl; congruence.
  - intros cause Hin HI HS.
    apply InStage in Hin as [Hp Hin]; try discriminate.
    apply parsePlatform_index_called in Hin.
    apply Stage; [|exact Hp].
    now rewrite (parsePlatform_index_error ref p cause Hin HI HS).
  - intros index cause Hin HI HM.
    apply InStage in Hin as [Hp Hin]; try discriminate.
    apply parsePlatform_index_called in Hin.
    apply Stage; [|exact Hp].
    now rewrite (parsePlatform_manifest_error ref p index cause Hin HI HM).
  - intros cause Hp Hw HE.
    apply Stage; [|exact Hp].
    rewrite (parsePlatform_plain ref p Hw). unfold parseResult. simpl.
    now rewrite HE.
  - intros index m m0 rest pl cause Hw HI HM HE HP HPl.
    apply Stage; [|now apply Wild].
    rewrite (parsePlatform_first_os ref p index m m0 rest pl Hw HI HM HE HP).
    unfold parseResult. simpl. now rewrite HPl.
  - intros index m m0 rest cause Hw HI HM HE HP HPl.
    apply Stage; [|now apply Wild].
    rewrite (parsePlatform_first_bare ref p index m m0 rest Hw HI HM HE HP).
    unfold parseResult. simpl. now rewrite HPl.
Qed.

(** C10: the index fetch of a run is made with the reference and an
    empty option list, whatever the credentials and the TLS flag are; two
    runs on the same reference whose options agree on [Platform] fetch the
    index alike, resolve the platform alike, hand the same platform
    options to [remote.Get], and fail alike when platform resolution
    fails. *)
Theorem platform_resolution_ignores_connection_options
        (imageName : string) (ref : name.Reference)
        (o1 o2 : types.DockerOption) :
  types.Platform o1 = types.Platform o2 ->
  let run1 := tryRemote' imageName ref o1 in
  let run2 := tryRemote' imageName ref o2 in
  (forall r opts, In (CallIndex r opts) (trace run1) -> r = ref /\ opts = [])
  /\ indexCalls (trace run1) = indexCalls (trace run2)
  /\ parsePlatform' ref (types.Platform o1) = parsePlatform' ref (types.Platform o2)
  /\ map platformOptions (getCalls (trace run1)) =
       map platformOptions (getCalls (trace run2))
  /\ (forall e, types.Platform o1 <> "" ->
                result (parsePlatform' ref (types.Platform o1)) = Err e ->
                result run1 = Err e /\ result run2 = Err e).
Proof.
  intros HP run1 run2. subst run1 run2.
  split; [|split; [|split; [|split]]].
  - intros r opts Hin.
    assert (Hf : In (CallIndex r opts)
                    (indexCalls (trace (tryRemote' imageName ref o1))))
      by (apply filter_In; now split).
    rewrite tryRemote_indexCalls in Hf. apply filter_In in Hf as [Hf _].
    apply platformStage_events in Hf as [_ Hf].
    apply parsePlatform_events in Hf as [Hf|[Hf|Hf]]; try discriminate.
    now injection Hf as -> ->.
  - rewrite !tryRemote_indexCalls, !platformStage_trace. now rewrite HP.
  - now rewrite HP.
  - rewrite !tryRemote_constraint. now rewrite HP.
  - intros e Hne He.
    assert (S1 : result (platformStage' ref o1) = Err e)
      by (apply platformStage_Err; now split).
    assert (S2 : result (platformStage' ref o2) = Err e)
      by (apply platformStage_Err; rewrite <- HP; now split).
    pose proof (tryRemote_run imageName ref o1) as R1.
    pose proof (tryRemote_run imageName ref o2) as R2.
    simpl in R1, R2. rewrite S1 in R1. rewrite S2 in R2.
    split; [apply R1 | apply R2].
Qed.

(** When a platform is requested and resolution answers "no
    constraint", [tryRemote] dereferences the nil platform: the run ends
    in a panic after the index fetch, before any credential is chosen. *)
Remark tryRemote_no_constraint_panics (imageName : string)
       (ref : name.Reference) (option : types.DockerOption) :
  types.Platform option <> "" ->
  result (parsePlatform' ref (types.Platform option)) = Ok None ->
  result (tryRemote' imageName ref option) =
    Panic "invalid memory address or nil pointer dereference"
  /\ getCalls (trace (tryRemote' imageName ref option)) = [].
Proof.
  intros Hp Hr.
  pose proof (tryRemote_run imageName ref option) as R. simpl in R.
  pose proof (platformStage_result ref option) as S.
  rewrite (eqb_empty_false _ Hp), Hr in S. rewrite S in R.
  destruct R as [Rt Rr]. split; [exact Rr|].
  rewrite Rt. apply platformStage_getCalls.
Qed.

(** *** The shape of a run *)

Lemma imageCalls_app (t t' : list event) :
  imageCalls (t ++ t') = (imageCalls t ++ imageCalls t')%list.
Proof.
  induction t as [|ev t IH]; simpl; [reflexivity|].
  destruct ev; simpl; now rewrite IH.
Qed.

Lemma parsePlatform_calls (ref : name.Reference) (p : string) :
  imageCalls (trace (parsePlatform' ref p)) = []
  /\ (indexCalls (trace (parsePlatform' ref p)) = []
      \/ indexCalls (trace (parsePlatform' ref p)) = [CallIndex ref []]).
Proof.
  destruct (parsePlatform_path ref p); simpl; auto.
Qed.

Lemma platformStage_calls (ref : name.Reference) (option : types.DockerOption) :
  imageCalls (trace (platformStage' ref option)) = []
  /\ (indexCalls (trace (platformStage' ref option)) = []
      \/ indexCalls (trace (platformStage' ref option)) = [CallIndex ref []]).
Proof.
  rewrite platformStage_trace.
  destruct (types.Platform option =? ""); [simpl; auto|].
  apply parsePlatform_calls.
Qed.

(** The options a fetch is made with, in the order the code appends them:
    the transport that skips certificate verification exactly when
    [InsecureSkipTLSVerify] is set, then one platform option exactly when a
    platform was asked for, then one credential; nothing else. *)
Theorem fetch_options_shape (imageName : string) (ref : name.Reference)
        (option : types.DockerOption) (r : name.Reference)
        (opts : list remote.Option) :
  In (CallGet r opts) (trace (tryRemote' imageName ref option)) ->
  transportOptions opts =
    (if types.InsecureSkipTLSVerify option
     then [remote.WithTransport insecureTransport] else [])
  /\ List.length (platformOptions opts) =
       (if types.Platform option =? "" then 0 else 1)
  /\ List.length (authOptions opts) = 1
  /\ opts = (transportOptions opts ++ platformOptions opts
             ++ authOptions opts)%list.
Proof.
  intros H. apply tryRemote_get_call in H as [_ [pre [Hpre ->]]].
  pose proof (credentialOption_kind ref option) as [Ca Cp].
  assert (Ct : transportOptions [credentialOption' ref option] = []).
  { unfold credentialOption.
    destruct (negb (authn.Username _ =? "") && negb (authn.Password _ =? ""));
      [reflexivity|].
    now destruct (negb (types.RegistryToken option =? "")). }
  set (cred := credentialOption' ref option) in *.
  assert (Shape : forall pre',
             transportOptions (append pre' cred) = transportOptions pre'
             /\ platformOptions (append pre' cred) = platformOptions pre'
             /\ authOptions (append pre' cred) = (authOptions pre' ++ [cred])%list).
  { intros pre'. unfold transportOptions, platformOptions, authOptions, append.
    rewrite !filter_app.
    fold (transportOptions [cred]) (platformOptions [cred]) (authOptions [cred]).
    now rewrite Ct, Cp, Ca, !app_nil_r. }
  destruct (Shape pre) as [-> [-> ->]].
  apply platformStage_Ok in Hpre as [[E ->]|[E [s [_ ->]]]].
  - rewrite E. unfold tlsOptions, insecureTransport.
    destruct (types.InsecureSkipTLSVerify option); now repeat split.
  - rewrite (eqb_empty_false _ E). unfold tlsOptions, insecureTransport.
    destruct (types.InsecureSkipTLSVerify option); now repeat split.
Qed.

(** A run that succeeds ends with the fetch and the materialization, both
    answered by the registry; the image it returns carries the caller's
    name as it was given, the reference, the descriptor [remote.Get]
    answered with and the handle [desc.Image] answered with. *)
Theorem tryRemote_success (imageName : string) (ref : name.Reference)
        (option : types.DockerOption) (img : remoteImage v1_Image) :
  result (tryRemote' imageName ref option) = Ok img ->
  exists pre opts desc handle,
    trace (tryRemote' imageName ref option) =
      (pre ++ [CallGet ref opts; CallImage desc])%list
    /\ getCalls pre = [] /\ imageCalls pre = []
    /\ remote_Get ref opts = inr desc
    /\ Descriptor_Image desc = inr handle
    /\ img = mkRemoteImage v1_Image imageName (mkImplicitReference ref)
                           desc handle
    /\ Name img = imageName.
Proof.
  intros H.
  pose proof (tryRemote_run imageName ref option) as R. simpl in R.
  destruct (platformStage_getCalls ref option) as [G _].
  destruct (platformStage_calls ref option) as [I _].
  destruct (result (platformStage' ref option)) as [pre|e|msg];
    [|destruct R as [_ R]; congruence..].
  destruct R as [Rt Rr]. rewrite Rr in H. rewrite Rt.
  set (opts := append pre (credentialOption' ref option)) in *.
  rewrite fetchStage_run in H |- *.
  exists (trace (platformStage' ref option)), opts.
  destruct (remote_Get ref opts) as [err|desc] eqn:EG; [discriminate|].
  destruct (Descriptor_Image desc) as [err|handle] eqn:EI; [discriminate|].
  exists desc, handle.
  simpl in H. injection H as <-. simpl. now repeat split.
Qed.

(** Nothing is tried twice: a run fetches the index at most once, calls
    [remote.Get] at most once and [desc.Image] at most once, and
    [desc.Image] only on the descriptor that the fetch of this run
    answered with. *)
Theorem tryRemote_calls_once (imageName : string) (ref : name.Reference)
        (option : types.DockerOption) :
  let run := tryRemote' imageName ref option in
  List.length (indexCalls (trace run)) <= 1
  /\ List.length (getCalls (trace run)) <= 1
  /\ List.length (imageCalls (trace run)) <= 1
  /\ (forall desc, In desc (imageCalls (trace run)) ->
        exists opts, getCalls (trace run) = [opts]
                     /\ remote_Get ref opts = inr desc).
Proof.
  intros run. subst run.
  pose proof (tryRemote_run imageName ref option) as R. simpl in R.
  destruct (platformStage_getCalls ref option) as [G _].
  destruct (platformStage_calls ref option) as [I X].
  rewrite tryRemote_indexCalls.
  split; [destruct X as [-> | ->]; simpl; auto|].
  destruct (result (platformStage' ref option)) as [pre|e|msg];
    destruct R as [-> _]; rewrite ?getCalls_app, ?imageCalls_app, G, I;
    simpl; auto using le_0_n; try (repeat split; auto; now intros).
  set (opts := append pre (credentialOption' ref option)).
  rewrite fetchStage_run.
  destruct (remote_Get ref opts) as [err|desc] eqn:EG; simpl.
  - repeat split; auto. now intros.
  - destruct (Descriptor_Image desc); simpl; repeat split; auto;
      intros d [<-|[]]; now exists opts.
Qed.

(** The fetch is made exactly when no platform was asked for or platform
    resolution produced one; after a failed resolution, and after a
    resolution that answered "no constraint", nothing is fetched. *)
Theorem fetch_reached_iff (imageName : string) (ref : name.Reference)
        (option : types.DockerOption) :
  getCalls (trace (tryRemote' imageName ref option)) <> [] <->
  types.Platform option = ""
  \/ exists s, result (parsePlatform' ref (types.Platform option)) = Ok (Some s).
Proof.
  pose proof (tryRemote_constraint imageName ref option) as C.
  destruct (types.Platform option =? "") eqn:E.
  - apply String.eqb_eq in E. split; [now left|]. intros _ H.
    now rewrite H in C.
  - apply String.eqb_neq in E. split.
    + intros H. right.
      destruct (result (parsePlatform' ref (types.Platform option)))
        as [[s|]|e|msg]; try (now exists s);
        destruct (getCalls _); simpl in C; congruence.
    + intros [H|[s Hs]]; [contradiction|]. rewrite Hs in C.
      intros H. now rewrite H in C.
Qed.

(** A platform string that is not a wildcard is resolved without the
    registry: no index is fetched; when the string parses, the one fetch
    is constrained to the parsed platform; when it does not, the run makes
    no call at all and returns the wrapped parse error. *)
Theorem concrete_platform_run (imageName : string) (ref : name.Reference)
        (option : types.DockerOption) :
  types.Platform option <> "" ->
  strings.HasPrefix (types.Platform option) "*/" = false ->
  let run := tryRemote' imageName ref option in
  indexCalls (trace run) = []
  /\ (forall cause,
        v1_ParsePlatform (types.Platform option) = inl cause ->
        run = ([], Err (Errorf "platform parse error" cause)))
  /\ (forall pl,
        v1_ParsePlatform (types.Platform option) = inr pl ->
        exists opts, getCalls (trace run) = [opts]
                     /\ platformOptions opts = [remote.WithPlatform pl]).
Proof.
  intros Hp Hw run. subst run.
  pose proof (parsePlatform_plain ref _ Hw) as P.
  pose proof (tryRemote_run imageName ref option) as R. simpl in R.
  pose proof (platformStage_result ref option) as S.
  pose proof (platformStage_trace ref option) as T.
  rewrite (eqb_empty_false _ Hp), P in S, T. simpl in S, T.
  unfold parseResult in S.
  split; [|split].
  - rewrite tryRemote_indexCalls. now rewrite T.
  - intros cause HE. rewrite HE in S. rewrite S in R.
    destruct R as [Rt Rr]. rewrite T in Rt.
    destruct (tryRemote' imageName ref option) as [t o]. simpl in *.
    now subst.
  - intros pl HE. rewrite HE in S. rewrite S in R.
    destruct R as [Rt _]. rewrite Rt, T. simpl.
    rewrite (proj1 (proj2 (fetchStage_trace _ _ _))).
    eexists. split; [reflexivity|].
    rewrite !platformOptions_append.
    rewrite (proj1 (tlsOptions_plain option)).
    now rewrite (proj2 (credentialOption_kind ref option)).
Qed.

(** A wildcard resolved against the index constrains the fetch: with a
    first manifest that has a platform record, one index fetch is made
    and the one fetch that follows carries the platform parsed from that
    record's OS and the rest of the input. *)
Theorem wildcard_platform_run (imageName : string) (ref : name.Reference)
        (option : types.DockerOption) (index : v1_ImageIndex)
        (m : v1.IndexManifest) (m0 : v1.Descriptor)
        (rest : list v1.Descriptor) (pl plat : v1.Platform) :
  strings.HasPrefix (types.Platform option) "*/" = true ->
  remote_Index ref [] = inr index ->
  ImageIndex_IndexManifest index = inr m ->
  v1.Manifests m = m0 :: rest ->
  v1.Platform_ m0 = Some pl ->
  v1_ParsePlatform
    (v1.OS pl ++ strings.TrimPrefix (types.Platform option) "*") = inr plat ->
  let run := tryRemote' imageName ref option in
  indexCalls (trace run) = [CallIndex ref []]
  /\ exists opts, getCalls (trace run) = [opts]
                  /\ platformOptions opts = [remote.WithPlatform plat].
Proof.
  intros Hw HI HM HE HP HPl run. subst run.
  assert (Hp : types.Platform option <> "").
  { intros E. rewrite E in Hw. discriminate. }
  pose proof (parsePlatform_first_os ref _ index m m0 rest pl Hw HI HM HE HP) as P.
  pose proof (tryRemote_run imageName ref option) as R. simpl in R.
  pose proof (platformStage_result ref option) as S.
  pose proof (platformStage_trace ref option) as T.
  rewrite (eqb_empty_false _ Hp), P in S, T. simpl in S, T.
  unfold parseResult in S. rewrite HPl in S. rewrite S in R.
  destruct R as [Rt _]. split.
  - rewrite tryRemote_indexCalls. now rewrite T.
  - rewrite Rt, T. simpl.
    rewrite (proj1 (proj2 (fetchStage_trace _ _ _))).
    eexists. split; [reflexivity|].
    rewrite !platformOptions_append.
    rewrite (proj1 (tlsOptions_plain option)).
    now rewrite (proj2 (credentialOption_kind ref option)).
Qed.

(** Platform resolution answers "no constraint" in two cases only, both
    for a wildcard: the index fetch failed with the legacy-schema error,
    or the index lists no manifest; and it never panics, the first
    manifest being read only after the length test. *)
Theorem parsePlatform_no_constraint_iff (ref : name.Reference) (p : string) :
  (result (parsePlatform' ref p) = Ok None <->
   strings.HasPrefix p "*/" = true
   /\ ((exists err, remote_Index ref [] = inl err /\ isErrSchema1 err = true)
       \/ (exists index m, remote_Index ref [] = inr index
                           /\ ImageIndex_IndexManifest index = inr m
                           /\ v1.Manifests m = [])))
  /\ (forall msg, result (parsePlatform' ref p) <> Panic msg).
Proof.
  split; [|intros msg; apply parsePlatform_no_panic].
  assert (N : forall s, parseResult' s <> Ok None).
  { intros s. unfold parseResult. now destruct (v1_ParsePlatform s). }
  destruct (parsePlatform_path ref p) as
      [Hw|err Hw HI HS|err Hw HI HS|index err Hw HI HM|index m Hw HI HM HE
       |index m m0 rest pl Hw HI HM HE HP|index m m0 rest Hw HI HM HE HP];
    simpl; split; intros H;
    try (now elim (N _ H)); try discriminate; auto.
  - destruct H as [H _]. congruence.
  - split; [exact Hw|]. left. now exists err.
  - destruct H as [_ [[e [H1 H2]]|[i [m' [H1 _]]]]]; congruence.
  - destruct H as [_ [[e [H1 H2]]|[i [m' [H1 [H2 _]]]]]]; congruence.
  - split; [exact Hw|]. right. now exists index, m.
  - destruct H as [_ [[e [H1 H2]]|[i [m' [H1 [H2 H3]]]]]]; congruence.
  - destruct H as [_ [[e [H1 H2]]|[i [m' [H1 [H2 H3]]]]]]; congruence.
Qed.

(** A wildcard platform against an image that is not multi-arch: when
    the index fetch fails with the legacy-schema error, or the index lists
    no manifest, [tryRemote] dereferences the nil platform that resolution
    answered with: the run panics and nothing is fetched. *)
Theorem wildcard_not_multi_arch_panics (imageName : string)
        (ref : name.Reference) (option : types.DockerOption) :
  strings.HasPrefix (types.Platform option) "*/" = true ->
  (exists err, remote_Index ref [] = inl err /\ isErrSchema1 err = true)
  \/ (exists index m, remote_Index ref [] = inr index
                      /\ ImageIndex_IndexManifest index = inr m
                      /\ v1.Manifests m = []) ->
  result (tryRemote' imageName ref option) =
    Panic "invalid memory address or nil pointer dereference"
  /\ getCalls (trace (tryRemote' imageName ref option)) = []
  /\ indexCalls (trace (tryRemote' imageName ref option)) = [CallIndex ref []].
Proof.
  intros Hw Hn.
  assert (Hp : types.Platform option <> "").
  { intros E. rewrite E in Hw. discriminate. }
  assert (P : result (parsePlatform' ref (types.Platform option)) = Ok None
              /\ indexCalls (trace (parsePlatform' ref (types.Platform option)))
                 = [CallIndex ref []]).
  { destruct Hn as [[err [HI HS]]|[index [m [HI [HM HE]]]]].
    - now rewrite (parsePlatform_schema1 ref _ err Hw HI HS).
    - now rewrite (parsePlatform_empty_index ref _ index m Hw HI HM HE). }
  destruct P as [Pr Pi].
  destruct (tryRemote_no_constraint_panics imageName ref option Hp Pr) as [A B].
  split; [exact A|]. split; [exact B|].
  rewrite tryRemote_indexCalls, platformStage_trace.
  now rewrite (eqb_empty_false _ Hp).
Qed.

End paths.

(* ------------------------------------------------------------------ *)
(** ** The pipeline on the stand-in registry *)

(** The two scenarios of the specification. *)
Example scenario_alpine :
  exists img,
    fake.tryRemote "alpine:3.18" fake.alpine fake.anonymous =
      ([CallGet fake.alpine [remote.WithAuthFromKeychain authn.DefaultKeychain];
        CallImage fake.fetched], Ok img)
    /\ RepositoryName (ref img) = "alpine"
    /\ RepoTags img = ["alpine:3.18"]
    /\ RepoDigests img = ["alpine@sha256:abcd"].
Proof. eexists. repeat split. Qed.

Example scenario_app :
  exists img,
    fake.tryRemote "app" fake.app fake.tokenOnly =
      ([CallGet fake.app
                [remote.WithAuth (authn.OfBearer (authn.mkBearer "tok"))];
        CallImage fake.fetched], Ok img)
    /\ RepoTags img = []
    /\ RepoDigests img = ["myregistry.io/team/app@sha256:abcd"].
Proof. eexists. repeat split. Qed.

(** A wildcard platform against a legacy single-manifest image: the index
    fetch fails with the schema error, resolution answers "no constraint",
    and the run panics before anything is fetched. *)
Example legacy_wildcard_run :
  fake.parsePlatform (fake.at_ "legacy.example.com") "*/amd64" =
    ([CallIndex (fake.at_ "legacy.example.com") []; LogDebug notMultiArch],
     Ok None)
  /\ fake.tryRemote "app" (fake.at_ "legacy.example.com") (fake.anyOS "amd64") =
       ([CallIndex (fake.at_ "legacy.example.com") []; LogDebug notMultiArch],
        Panic "invalid memory address or nil pointer dereference").
Proof. split; reflexivity. Qed.

(** What the code does against C2 as it is written: no user name and no
    password in the options, a registry token given, and the fetch is made
    with the basic pair [token.GetToken] answered with, not with the
    bearer token. *)
Lemma registry_token_not_used_with_helper_pair :
  types.Username fake.tokenOnly = ""
  /\ types.Password fake.tokenOnly = ""
  /\ types.RegistryToken fake.tokenOnly = "tok"
  /\ getCalls
       (trace (fakeHelper.tryRemote "app" fakeHelper.registry fake.tokenOnly))
     = [[remote.WithAuth (authn.OfBasic (authn.mkBasic "AWS" "ecr-token"))]]
  /\ [remote.WithAuth (authn.OfBasic (authn.mkBasic "AWS" "ecr-token"))]
     <> [remote.WithAuth (authn.OfBearer (authn.mkBearer "tok"))].
Proof. repeat split. discriminate. Qed.

Lemma credential_precedence_witness :
  (In (CallGet fake.app
               [remote.WithAuth (authn.OfBasic (authn.mkBasic "alice" "s3cret"))])
      (trace (fake.tryRemote "app" fake.app fake.allSet))
   /\ authOptions
        [remote.WithAuth (authn.OfBasic (authn.mkBasic "alice" "s3cret"))]
      = [remote.WithAuth (authn.OfBasic (authn.mkBasic "alice" "s3cret"))])
  /\ (In (CallGet fake.app
                  [remote.WithAuth (authn.OfBearer (authn.mkBearer "tok"))])
         (trace (fake.tryRemote "app" fake.app fake.tokenOnly))
      /\ authOptions
           [remote.WithAuth (authn.OfBearer (authn.mkBearer "tok"))]
         = [remote.WithAuth (authn.OfBearer (authn.mkBearer "tok"))])
  /\ (In (CallGet fake.alpine
                  [remote.WithAuthFromKeychain authn.DefaultKeychain])
         (trace (fake.tryRemote "alpine:3.18" fake.alpine fake.anonymous))
      /\ authOptions [remote.WithAuthFromKeychain authn.DefaultKeychain]
         = [remote.WithAuthFromKeychain authn.DefaultKeychain])
  /\ (In (CallGet fakeHelper.registry
                  [remote.WithAuth
                     (authn.OfBasic (authn.mkBasic "AWS" "ecr-token"))])
         (trace (fakeHelper.tryRemote "app" fakeHelper.registry fake.tokenOnly))
      /\ authOptions
           [remote.WithAuth (authn.OfBasic (authn.mkBasic "AWS" "ecr-token"))]
         = [remote.WithAuth (authn.OfBasic (authn.mkBasic "AWS" "ecr-token"))]).
Proof.
  split; [|split; [|split]].
  - assert (H : In (CallGet fake.app
                      [remote.WithAuth
                         (authn.OfBasic (authn.mkBasic "alice" "s3cret"))])
                   (trace (fake.tryRemote "app" fake.app fake.allSet)))
      by (simpl; left; reflexivity).
    split; [exact H|].
    apply (proj2 (proj2 (proj2 (proj2 (proj1 (credential_precedence
             string string fake.GetToken fake.Index fake.IndexManifest
             fake.ParsePlatform fake.Get fake.Image
             "app" fake.app fake.allSet) _ _ H))))).
    + reflexivity.
    + discriminate.
    + discriminate.
  - assert (H : In (CallGet fake.app
                      [remote.WithAuth (authn.OfBearer (authn.mkBearer "tok"))])
                   (trace (fake.tryRemote "app" fake.app fake.tokenOnly)))
      by (simpl; left; reflexivity).
    split; [exact H|].
    apply (proj1 (proj2 (proj2 (proj1 (credential_precedence
             string string fake.GetToken fake.Index fake.IndexManifest
             fake.ParsePlatform fake.Get fake.Image
             "app" fake.app fake.tokenOnly) _ _ H)))).
    + intros [HU _]. now apply HU.
    + discriminate.
  - assert (H : In (CallGet fake.alpine
                      [remote.WithAuthFromKeychain authn.DefaultKeychain])
                   (trace (fake.tryRemote "alpine:3.18" fake.alpine
                                          fake.anonymous)))
      by (simpl; left; reflexivity).
    split; [exact H|].
    apply (proj1 (proj2 (proj2 (proj2 (proj1 (credential_precedence
             string string fake.GetToken fake.Index fake.IndexManifest
             fake.ParsePlatform fake.Get fake.Image
             "alpine:3.18" fake.alpine fake.anonymous) _ _ H))))).
    + intros [HU _]. now apply HU.
    + reflexivity.
  - assert (H : In (CallGet fakeHelper.registry
                      [remote.WithAuth
                         (authn.OfBasic (authn.mkBasic "AWS" "ecr-token"))])
                   (trace (fakeHelper.tryRemote "app" fakeHelper.registry
                                                fake.tokenOnly)))
      by (simpl; left; reflexivity).
    split; [exact H|].
    apply (proj1 (proj2 (proj1 (credential_precedence
             string string fakeHelper.GetToken fake.Index fake.IndexManifest
             fake.ParsePlatform fake.Get fake.Image
             "app" fakeHelper.registry fake.tokenOnly) _ _ H))).
    split; discriminate.
Defined.

Lemma wildcard_takes_first_os_witness :
  fake.parsePlatform fake.alpine "*/arm64" =
    ([CallIndex fake.alpine []; CallIndexManifest],
     Ok (Some (v1.mkPlatform "arm64" "linux" "" ""))).
Proof.
  exact (wildcard_takes_first_os
           string fake.Index fake.IndexManifest fake.ParsePlatform
           fake.alpine "arm64" "index.docker.io"
           (v1.mkIndexManifest 2 [fake.entry "linux" "amd64";
                                  fake.entry "windows" "amd64"])
           (fake.entry "linux" "amd64") [fake.entry "windows" "amd64"]
           (v1.mkPlatform "amd64" "linux" "" "")
           eq_refl eq_refl eq_refl eq_refl).
Defined.

(** What the code does against C3 as it is written: the index lists two
    manifests, the first one without a platform record, and the resolved
    constraint keeps the ["*"] as its OS. *)
Lemma wildcard_kept_without_platform_record :
  fake.Index (fake.at_ "bare.example.com") [] = inr "bare.example.com"
  /\ fake.IndexManifest "bare.example.com" =
       inr (v1.mkIndexManifest 2 [fake.attestation; fake.entry "linux" "arm64"])
  /\ v1.Platform_ fake.attestation = None
  /\ result (fake.parsePlatform (fake.at_ "bare.example.com") "*/arm64") =
       Ok (Some (v1.mkPlatform "arm64" "*" "" ""))
  /\ result (fake.parsePlatform (fake.at_ "bare.example.com") "*/arm64") <>
       Ok (Some (v1.mkPlatform "arm64" "linux" "" "")).
Proof. repeat split. discriminate. Qed.

Lemma wildcard_not_multi_arch_witness :
  fake.parsePlatform (fake.at_ "legacy.example.com") "*/amd64" =
    ([CallIndex (fake.at_ "legacy.example.com") []; LogDebug notMultiArch],
     Ok None)
  /\ fake.parsePlatform (fake.at_ "empty.example.com") "*/amd64" =
       ([CallIndex (fake.at_ "empty.example.com") []; CallIndexManifest;
         LogDebug notMultiArch], Ok None)
  /\ fake.parsePlatform (fake.at_ "down.example.com") "*/amd64" =
       ([CallIndex (fake.at_ "down.example.com") []],
        Err (Errorf "remote index error" (ErrorString "connection refused"))).
Proof.
  split; [|split].
  - exact (proj1 (wildcard_not_multi_arch
                    string fake.Index fake.IndexManifest fake.ParsePlatform
                    (fake.at_ "legacy.example.com") "*/amd64" eq_refl)
                 _ eq_refl eq_refl).
  - exact (proj1 (proj2 (wildcard_not_multi_arch
                    string fake.Index fake.IndexManifest fake.ParsePlatform
                    (fake.at_ "empty.example.com") "*/amd64" eq_refl))
                 "empty.example.com" (v1.mkIndexManifest 2 [])
                 eq_refl eq_refl eq_refl).
  - exact (proj2 (proj2 (wildcard_not_multi_arch
                    string fake.Index fake.IndexManifest fake.ParsePlatform
                    (fake.at_ "down.example.com") "*/amd64" eq_refl))
                 _ eq_refl eq_refl).
Defined.

Lemma wildcard_first_entry_without_platform_witness :
  fake.parsePlatform (fake.at_ "bare.example.com") "*/arm64" =
    ([CallIndex (fake.at_ "bare.example.com") []; CallIndexManifest],
     Ok (Some (v1.mkPlatform "arm64" "*" "" "")))
  /\ result (fake.parsePlatform (fake.at_ "bare.example.com") "*/arm64")
     <> Ok None.
Proof.
  exact (wildcard_first_entry_without_platform
           string fake.Index fake.IndexManifest fake.ParsePlatform
           (fake.at_ "bare.example.com") "*/arm64" "bare.example.com"
           (v1.mkIndexManifest 2 [fake.attestation; fake.entry "linux" "arm64"])
           fake.attestation [fake.entry "linux" "arm64"]
           eq_refl eq_refl eq_refl eq_refl eq_refl).
Defined.

Lemma RepoDigests_of_fetched_descriptor_witness :
  result (fake.tryRemote "alpine:3.18" fake.alpine fake.anonymous) =
    Ok (mkRemoteImage string "alpine:3.18" (mkImplicitReference fake.alpine)
                      fake.fetched "image@sha256:abcd")
  /\ exists opts desc,
       In (CallGet fake.alpine opts)
          (trace (fake.tryRemote "alpine:3.18" fake.alpine fake.anonymous))
       /\ fake.Get fake.alpine opts = inr desc
       /\ RepoDigests
            (mkRemoteImage string "alpine:3.18" (mkImplicitReference fake.alpine)
                           fake.fetched "image@sha256:abcd")
          = [RepositoryName (mkImplicitReference fake.alpine) ++ "@"
             ++ v1.Hash_String (remote.Digest desc)]
       /\ List.length
            (RepoDigests
               (mkRemoteImage string "alpine:3.18"
                              (mkImplicitReference fake.alpine)
                              fake.fetched "image@sha256:abcd")) = 1.
Proof.
  split; [reflexivity|].
  exact (RepoDigests_of_fetched_descriptor
           string string fake.GetToken fake.Index fake.IndexManifest
           fake.ParsePlatform fake.Get fake.Image
           "alpine:3.18" fake.alpine fake.anonymous
           (mkRemoteImage string "alpine:3.18" (mkImplicitReference fake.alpine)
                          fake.fetched "image@sha256:abcd")
           eq_refl).
Defined.

Lemma empty_platform_no_constraint_witness :
  types.Platform fake.anonymous = ""
  /\ indexCalls
       (trace (fake.tryRemote "alpine:3.18" fake.alpine fake.anonymous)) = []
  /\ (exists opts,
        getCalls
          (trace (fake.tryRemote "alpine:3.18" fake.alpine fake.anonymous))
        = [opts]
        /\ platformOptions opts = []).
Proof.
  split; [reflexivity|].
  pose proof (empty_platform_no_constraint
                string string fake.GetToken fake.Index fake.IndexManifest
                fake.ParsePlatform fake.Get fake.Image
                "alpine:3.18" fake.alpine fake.anonymous eq_refl) as W.
  split; [exact (proj1 W) | exact (proj1 (proj2 W))].
Defined.

(** What the code does against C8 as it is written: an error of
    [remote.Get] and an error of [desc.Image] reach the caller bare, not
    wrapped by [xerrors.Errorf]. *)
Lemma fetch_errors_returned_bare :
  (result (fake.tryRemote "app" (fake.at_ "down.example.com") fake.anonymous)
   = Err (ErrorString "connection refused")
   /\ ~ isWrapped (ErrorString "connection refused"))
  /\ (result (fake.tryRemote "app" (fake.at_ "corrupt.example.com")
                             fake.anonymous)
      = Err (ErrorString "unexpected end of JSON input")
      /\ ~ isWrapped (ErrorString "unexpected end of JSON input")).
Proof.
  split; (split; [reflexivity|]); intros [context [cause H]]; discriminate.
Qed.

Lemma error_propagation_witness :
  (In (CallGet (fake.at_ "down.example.com")
               [remote.WithAuthFromKeychain authn.DefaultKeychain])
      (trace (fake.tryRemote "app" (fake.at_ "down.example.com")
                             fake.anonymous))
   /\ fake.Get (fake.at_ "down.example.com")
               [remote.WithAuthFromKeychain authn.DefaultKeychain]
      = inl (ErrorString "connection refused")
   /\ result (fake.tryRemote "app" (fake.at_ "down.example.com")
                             fake.anonymous)
      = Err (ErrorString "connection refused"))
  /\ (In (CallIndex (fake.at_ "down.example.com") [])
         (trace (fake.tryRemote "app" (fake.at_ "down.example.com")
                                (fake.anyOS "amd64")))
      /\ fake.Index (fake.at_ "down.example.com") []
         = inl (ErrorString "connection refused")
      /\ result (fake.tryRemote "app" (fake.at_ "down.example.com")
                                (fake.anyOS "amd64"))
         = Err (Errorf "remote index error"
                       (ErrorString "connection refused")))
  /\ (fake.ParsePlatform "linux/a/b/c"
      = inl (ErrorString "too many slashes in platform spec: linux/a/b/c")
      /\ result (fake.tryRemote "alpine" fake.alpine (fake.anyOS "a/b/c"))
         = Err (Errorf "platform parse error"
                       (ErrorString
                          "too many slashes in platform spec: linux/a/b/c"))).
Proof.
  split; [|split].
  - assert (H : In (CallGet (fake.at_ "down.example.com")
                      [remote.WithAuthFromKeychain authn.DefaultKeychain])
                   (trace (fake.tryRemote "app" (fake.at_ "down.example.com")
                                          fake.anonymous)))
      by (simpl; left; reflexivity).
    split; [exact H|]. split; [reflexivity|].
    exact (proj1 (proj2 (proj2 (error_propagation
             string string fake.GetToken fake.Index fake.IndexManifest
             fake.ParsePlatform fake.Get fake.Image
             "app" (fake.at_ "down.example.com") fake.anonymous)))
             _ _ H eq_refl).
  - assert (H : In (CallIndex (fake.at_ "down.example.com") [])
                   (trace (fake.tryRemote "app" (fake.at_ "down.example.com")
                                          (fake.anyOS "amd64"))))
      by (simpl; left; reflexivity).
    split; [exact H|]. split; [reflexivity|].
    exact (proj1 (proj2 (proj2 (proj2 (proj2 (error_propagation
             string string fake.GetToken fake.Index fake.IndexManifest
             fake.ParsePlatform fake.Get fake.Image
             "app" (fake.at_ "down.example.com") (fake.anyOS "amd64"))))))
             _ H eq_refl eq_refl).
  - split; [reflexivity|].
    exact (proj1 (proj2 (proj2 (proj2 (proj2 (proj2 (proj2 (proj2
             (error_propagation
                string string fake.GetToken fake.Index fake.IndexManifest
                fake.ParsePlatform fake.Get fake.Image
                "alpine" fake.alpine (fake.anyOS "a/b/c")))))))))
             "index.docker.io"
             (v1.mkIndexManifest 2 [fake.entry "linux" "amd64";
                                    fake.entry "windows" "amd64"])
             (fake.entry "linux" "amd64") [fake.entry "windows" "amd64"]
             (v1.mkPlatform "amd64" "linux" "" "") _
             eq_refl eq_refl eq_refl eq_refl eq_refl eq_refl).
Defined.

Lemma platform_resolution_ignores_connection_options_witness :
  types.Platform (fake.anyOS "arm64") = types.Platform (fake.anyOSInsecure "arm64")
  /\ indexCalls (trace (fake.tryRemote "alpine" fake.alpine (fake.anyOS "arm64")))
     = indexCalls
         (trace (fake.tryRemote "alpine" fake.alpine (fake.anyOSInsecure "arm64")))
  /\ map platformOptions
         (getCalls (trace (fake.tryRemote "alpine" fake.alpine
                                          (fake.anyOS "arm64"))))
     = map platformOptions
           (getCalls (trace (fake.tryRemote "alpine" fake.alpine
                                            (fake.anyOSInsecure "arm64")))).
Proof.
  split; [reflexivity|].
  pose proof (platform_resolution_ignores_connection_options
                string string fake.GetToken fake.Index fake.IndexManifest
                fake.ParsePlatform fake.Get fake.Image
                "alpine" fake.alpine (fake.anyOS "arm64")
                (fake.anyOSInsecure "arm64") eq_refl) as W.
  split; [exact (proj1 (proj2 W)) | exact (proj1 (proj2 (proj2 (proj2 W))))].
Defined.

(* ------------------------------------------------------------------ *)
(** ** Identity strings *)

(** C1: [RepositoryName] on every reference: with a registry other than
    the default one it is the registry domain, a ["/"] and the repository
    path; with the default registry the domain is left out and a leading
    ["library/"] of the path is removed, once: the rest of the path comes
    back as it is, also when it starts with ["library/"] again, and a path
    without that prefix comes back whole. *)
Theorem RepositoryName_default_namespace (r : implicitReference) :
  let ctx := name.Context (ref_ r) in
  (name.RegistryStr ctx <> name.DefaultRegistry ->
   RepositoryName r = name.RegistryStr ctx ++ "/" ++ name.RepositoryStr ctx)
  /\ (name.RegistryStr ctx = name.DefaultRegistry ->
      (forall rest, name.RepositoryStr ctx = "library/" ++ rest ->
                    RepositoryName r = rest)
      /\ (strings.HasPrefix (name.RepositoryStr ctx) "library/" = false ->
          RepositoryName r = name.RepositoryStr ctx)).
Proof.
  intros ctx. unfold RepositoryName. fold ctx. split.
  - intros H. apply String.eqb_neq in H. now rewrite H.
  - intros H. rewrite H, String.eqb_refl. cbn [negb]. split.
    + intros rest ->. exact (TrimPrefix_app "library/" rest).
    + apply TrimPrefix_without.
Qed.

Lemma RepositoryName_default_namespace_witness :
  RepositoryName (mkImplicitReference fake.alpine) = "alpine"
  /\ RepositoryName (mkImplicitReference fake.app) = "myregistry.io/team/app"
  /\ RepositoryName
       (mkImplicitReference
          (name.Tag (name.mkRepository name.DefaultRegistry
                                       "library/library/alpine") "3.18"))
     = "library/alpine"
  /\ RepositoryName
       (mkImplicitReference
          (name.Tag (name.mkRepository name.DefaultRegistry "bitnami/nginx")
                    "1.25"))
     = "bitnami/nginx".
Proof.
  split; [|split; [|split]].
  - apply (proj2 (RepositoryName_default_namespace
                    (mkImplicitReference fake.alpine)));
      reflexivity.
  - apply (proj1 (RepositoryName_default_namespace
                    (mkImplicitReference fake.app))).
    discriminate.
  - apply (proj2 (RepositoryName_default_namespace
                    (mkImplicitReference
                       (name.Tag (name.mkRepository name.DefaultRegistry
                                                    "library/library/alpine")
                                 "3.18"))));
      reflexivity.
  - apply (proj2 (RepositoryName_default_namespace
                    (mkImplicitReference
                       (name.Tag (name.mkRepository name.DefaultRegistry
                                                    "bitnami/nginx") "1.25"))));
      reflexivity.
Defined.

(** C6: [RepoTags]: empty when the reference has no tag (a digest
    reference, or an empty tag string); for a reference with tag [t] the
    single string made of the repository name, a [":"] and [t]. *)
Theorem RepoTags_of_reference (v1_Image : Type) (img : remoteImage v1_Image) :
  (TagName (ref img) = "" -> RepoTags img = [])
  /\ (forall repo digest,
        ref_ (ref img) = name.Digest repo digest -> RepoTags img = [])
  /\ (forall repo t,
        ref_ (ref img) = name.Tag repo t -> t <> "" ->
        RepoTags img = [RepositoryName (ref img) ++ ":" ++ t]).
Proof.
  unfold RepoTags, TagName. repeat split.
  - now intros ->.
  - now intros repo digest ->.
  - intros repo t -> Ht. now rewrite (eqb_empty_false t Ht).
Qed.

Lemma RepoTags_of_reference_witness :
  RepoTags (mkRemoteImage string "alpine:3.18" (mkImplicitReference fake.alpine)
                          (remote.mkDescriptor fake.attestation "{}") "handle")
  = ["alpine:3.18"]
  /\ RepoTags (mkRemoteImage string "app" (mkImplicitReference fake.app)
                             (remote.mkDescriptor fake.attestation "{}") "handle")
     = [].
Proof.
  split.
  - apply (proj2 (proj2 (RepoTags_of_reference string
             (mkRemoteImage string "alpine:3.18" (mkImplicitReference fake.alpine)
                (remote.mkDescriptor fake.attestation "{}") "handle")))
             (name.mkRepository name.DefaultRegistry "library/alpine") "3.18");
      [reflexivity | discriminate].
  - apply (proj1 (proj2 (RepoTags_of_reference string
             (mkRemoteImage string "app" (mkImplicitReference fake.app)
                (remote.mkDescriptor fake.attestation "{}") "handle")))
             (name.mkRepository "myregistry.io" "team/app") "sha256:abcd").
    reflexivity.
Defined.


(* ------------------------------------------------------------------ *)
(** ** License classification *)

Section classification.

Variable Classifier : Type.
Variable Reader : Type.
Variable LicenseTypeHeader : string.
Variable LicenseTypeFile : string.
Variable io_ReadAll : Reader -> string * option error.
Variable assets_DefaultClassifier : option Classifier * option error.
Variable Classifier_Normalize : option Classifier -> string -> string.
Variable Classifier_Match : option Classifier -> string -> classifier.Results.
Variable strconv_Quote : string -> string.

Local Abbreviation loopBody' :=
  (licensing.loopBody LicenseTypeHeader LicenseTypeFile).
Local Abbreviation classifyLoop' :=
  (licensing.classifyLoop LicenseTypeHeader LicenseTypeFile).
Local Abbreviation init' :=
  (licensing.initGoogleClassifier assets_DefaultClassifier).
Local Abbreviation Classify' :=
  (licensing.Classify LicenseTypeHeader LicenseTypeFile io_ReadAll
                      assets_DefaultClassifier Classifier_Normalize
                      Classifier_Match strconv_Quote).
Local Abbreviation session' :=
  (licensing.session LicenseTypeHeader LicenseTypeFile io_ReadAll
                     assets_DefaultClassifier Classifier_Normalize
                     Classifier_Match strconv_Quote).

(** The finding the loop records for a match. *)
Local Abbreviation findingOf m :=
  (licensing.mkLicenseFinding (classifier.Name m) (classifier.Confidence m)
                              (licensing.spdxLink (classifier.Name m))).

Lemma inSeen_In (name : string) (seen : list string) :
  licensing.inSeen name seen = true <-> In name seen.
Proof.
  unfold licensing.inSeen. rewrite existsb_exists. split.
  - intros [x [Hx E]]. apply String.eqb_eq in E. now subst.
  - intros H. exists name. split; [exact H | apply String.eqb_refl].
Qed.

(** The three ways a turn of the loop goes. *)
Lemma loopBody_cases (st : licensing.locals) (m : classifier.Match) :
  (licensing.confident m = false /\ loopBody' st m = st)
  \/ (licensing.confident m = true /\ In (classifier.Name m) (licensing.seen st)
      /\ loopBody' st m = st)
  \/ (licensing.confident m = true
      /\ ~ In (classifier.Name m) (licensing.seen st)
      /\ licensing.findings (loopBody' st m) =
           (licensing.findings st ++ [findingOf m])%list
      /\ licensing.seen (loopBody' st m) =
           classifier.Name m :: licensing.seen st
      /\ licensing.matchType (loopBody' st m) =
           if classifier.MatchType m =? "Header" then LicenseTypeHeader
           else if classifier.MatchType m =? "License" then LicenseTypeFile
           else licensing.matchType st).
Proof.
  unfold licensing.loopBody, licensing.confident.
  destruct (PrimFloat.leb _ _); simpl; [now left|].
  destruct (licensing.inSeen _ _) eqn:E.
  - right; left. apply inSeen_In in E. now repeat split.
  - right; right. repeat split.
    intros H. apply inSeen_In in H. congruence.
Qed.

Lemma loop_seen_grows (ms : list classifier.Match) (st : licensing.locals)
      (n : string) :
  In n (licensing.seen st) -> In n (licensing.seen (fold_left loopBody' ms st)).
Proof.
  revert st. induction ms as [|a ms IH]; intros st H; simpl; [exact H|].
  apply IH.
  destruct (loopBody_cases st a) as [[_ ->]|[[_ [_ ->]]|[_ [_ [_ [-> _]]]]]];
    simpl; auto.
Qed.

Lemma loop_records_confident (ms : list classifier.Match)
      (st : licensing.locals) (m : classifier.Match) :
  In m ms -> licensing.confident m = true ->
  In (classifier.Name m) (licensing.seen (fold_left loopBody' ms st)).
Proof.
  revert st. induction ms as [|a ms IH]; intros st Hin Hc; simpl;
    [now elim Hin|].
  destruct Hin as [<-|H].
  - apply loop_seen_grows.
    destruct (loopBody_cases st a) as [[C _]|[[_ [S ->]]|[_ [_ [_ [-> _]]]]]];
      [congruence | exact S | now left].
  - now apply IH.
Qed.

Lemma loop_invariant (ms : list classifier.Match) (st : licensing.locals) :
  licensing.loopInvariant st -> licensing.loopInvariant (fold_left loopBody' ms st).
Proof.
  revert st. induction ms as [|a ms IH]; intros st Inv; simpl; [exact Inv|].
  apply IH. destruct Inv as [ND Same].
  destruct (loopBody_cases st a)
    as [[_ ->]|[[_ [_ ->]]|[_ [Fresh [Hf [Hs _]]]]]]; try now split.
  unfold licensing.loopInvariant. rewrite Hf, Hs, map_app. simpl. split.
  - apply NoDup_app; [exact ND | | ].
    + repeat constructor. now intros [].
    + intros x Hx [<-|[]]. apply Fresh. now apply Same.
  - intros n. rewrite in_app_iff. simpl. rewrite <- Same. tauto.
Qed.

Lemma loop_sound (ms : list classifier.Match) (st : licensing.locals)
      (f : licensing.LicenseFinding) :
  In f (licensing.findings (fold_left loopBody' ms st)) ->
  In f (licensing.findings st)
  \/ exists pre m post,
       ms = (pre ++ m :: post)%list
       /\ licensing.confident m = true
       /\ f = findingOf m
       /\ ~ In (classifier.Name m) (licensing.seen st)
       /\ forall m', In m' pre -> classifier.Name m' = classifier.Name m ->
                     licensing.confident m' = false.
Proof.
  revert st. induction ms as [|a ms IH]; intros st H; simpl in H; [now left|].
  apply IH in H as [H|[pre [m [post [-> [Hc [-> [Fresh First]]]]]]]].
  - destruct (loopBody_cases st a)
      as [[_ E]|[[_ [_ E]]|[Ca [Fa [Hf _]]]]];
      try (rewrite E in H; now left).
    rewrite Hf in H. apply in_app_or in H as [H|[<-|[]]]; [now left|].
    right. exists [], a, ms. repeat split; auto. now intros m' [].
  - right. exists (a :: pre), m, post.
    assert (Sub : forall n, In n (licensing.seen st) ->
                            In n (licensing.seen (loopBody' st a))).
    { intros n Hn. exact (loop_seen_grows [a] st n Hn). }
    repeat split; auto.
    intros m' [<-|Hm'] Heq; [|now apply First].
    destruct (licensing.confident a) eqn:Ca; [|reflexivity].
    elim Fresh. rewrite <- Heq.
    exact (loop_records_confident [a] st a (or_introl eq_refl) Ca).
Qed.

Lemma loop_skips_unconfident (ms : list classifier.Match)
      (st : licensing.locals) :
  fold_left loopBody' (filter licensing.confident ms) st =
  fold_left loopBody' ms st.
Proof.
  revert st. induction ms as [|a ms IH]; intros st; simpl; [reflexivity|].
  destruct (licensing.confident a) eqn:Ca; simpl; [apply IH|].
  destruct (loopBody_cases st a) as [[_ ->]|[[C _]|[C _]]];
    [apply IH | congruence..].
Qed.

Lemma loop_type_kept (ms : list classifier.Match) (st : licensing.locals) :
  (forall m, In m ms -> licensing.confident m = true ->
             classifier.MatchType m <> "Header"
             /\ classifier.MatchType m <> "License") ->
  licensing.matchType (fold_left loopBody' ms st) = licensing.matchType st.
Proof.
  revert st. induction ms as [|a ms IH]; intros st H; simpl; [reflexivity|].
  rewrite IH by (intros m Hm; apply H; now right).
  destruct (loopBody_cases st a)
    as [[_ ->]|[[_ [_ ->]]|[Ca [_ [_ [_ ->]]]]]]; try reflexivity.
  destruct (H a (or_introl eq_refl) Ca) as [NH NL].
  apply String.eqb_neq in NH, NL. now rewrite NH, NL.
Qed.

(** How a call that answers with a file got there. *)
Lemma Classify_Ok (filePath : string) (r : Reader) (g : licensing.globals Classifier)
      (t : list licensing.event) (g' : licensing.globals Classifier)
      (lf : licensing.LicenseFile) :
  Classify' filePath r g = (t, g', Ok lf) ->
  exists content,
    io_ReadAll r = (content, None)
    /\ init' g = (t, g', None)
    /\ lf = licensing.mkLicenseFile
              (licensing.matchType
                 (classifyLoop'
                    (classifier.Matches
                       (Classifier_Match (licensing.cf g')
                          (Classifier_Normalize (licensing.cf g') content)))))
              filePath
              (licensing.findings
                 (classifyLoop'
                    (classifier.Matches
                       (Classifier_Match (licensing.cf g')
                          (Classifier_Normalize (licensing.cf g') content))))).
Proof.
  unfold licensing.Classify.
  destruct (io_ReadAll r) as [content [err|]]; [discriminate|].
  destruct (init' g) as [[t0 g0] [err|]]; [discriminate|].
  destruct (licensing.cf g0) as [c|] eqn:Ec; [|discriminate].
  intros [= <- <- <-]. exists content. now rewrite Ec.
Qed.

Lemma loop_seen_origin (ms : list classifier.Match) (st : licensing.locals)
      (n : string) :
  In n (licensing.seen (fold_left loopBody' ms st)) ->
  In n (licensing.seen st)
  \/ exists m, In m ms /\ licensing.confident m = true /\ classifier.Name m = n.
Proof.
  revert st. induction ms as [|a ms IH]; intros st H; simpl in H; [now left|].
  apply IH in H as [H|[m [Hm [Hc Hn]]]].
  - destruct (loopBody_cases st a)
      as [[_ E]|[[_ [_ E]]|[Ca [_ [_ [Hs _]]]]]];
      try (rewrite E in H; now left).
    rewrite Hs in H. destruct H as [<-|H]; [|now left].
    right. exists a. repeat split; auto. now left.
  - right. exists m. repeat split; auto. now right.
Qed.

Lemma confident_leb (m : classifier.Match) :
  licensing.confident m = true <->
  PrimFloat.leb (classifier.Confidence m) licensing.threshold = false.
Proof.
  unfold licensing.confident. destruct (PrimFloat.leb _ _); simpl.
  - split; discriminate.
  - split; reflexivity.
Qed.

Lemma Classify_load (filePath : string) (r : Reader)
      (g : licensing.globals Classifier) :
  let '(t, g', _) := Classify' filePath r g in
  (t = [] /\ g' = g)
  \/ (licensing.classifierOnce g = false
      /\ snd (io_ReadAll r) = None
      /\ t = [licensing.Debug "Loading the the default license classifier...";
              licensing.LoadDefaultClassifier]
      /\ g' = licensing.mkGlobals Classifier (fst assets_DefaultClassifier) true).
Proof.
  unfold licensing.Classify, licensing.initGoogleClassifier.
  destruct (io_ReadAll r) as [content [err|]]; [now left|].
  destruct (licensing.classifierOnce g) eqn:E.
  { destruct (licensing.cf g); now left. }
  destruct assets_DefaultClassifier as [[c|] [err|]]; right; now repeat split.
Qed.

(** The findings of a classified file carry pairwise distinct license
    names. *)
Theorem Classify_findings_distinct (filePath : string) (r : Reader)
        (g g' : licensing.globals Classifier) (t : list licensing.event)
        (lf : licensing.LicenseFile) :
  Classify' filePath r g = (t, g', Ok lf) ->
  NoDup (map licensing.Name (licensing.Findings lf)).
Proof.
  intros H. apply Classify_Ok in H as [content [_ [_ ->]]]. simpl.
  apply loop_invariant. split; [constructor | now split].
Qed.

(** Where a finding comes from: the first match of its name, in the order
    the classifier gave, whose confidence is not at or below 0.9; the
    finding has that match's name and confidence and the SPDX link made
    of the name.  Earlier matches of the same name were all at or below
    0.9. *)
Theorem Classify_finding_origin (filePath : string) (r : Reader)
        (g g' : licensing.globals Classifier) (t : list licensing.event)
        (lf : licensing.LicenseFile) (f : licensing.LicenseFinding) :
  Classify' filePath r g = (t, g', Ok lf) ->
  In f (licensing.Findings lf) ->
  exists content pre m post,
    io_ReadAll r = (content, None)
    /\ classifier.Matches
         (Classifier_Match (licensing.cf g')
            (Classifier_Normalize (licensing.cf g') content))
       = (pre ++ m :: post)%list
    /\ PrimFloat.leb (classifier.Confidence m) licensing.threshold = false
    /\ f = licensing.mkLicenseFinding
             (classifier.Name m) (classifier.Confidence m)
             ("https://spdx.org/licenses/" ++ classifier.Name m ++ ".html")
    /\ forall m', In m' pre -> classifier.Name m' = classifier.Name m ->
                  PrimFloat.leb (classifier.Confidence m') licensing.threshold
                  = true.
Proof.
  intros H Hf. apply Classify_Ok in H as [content [HR [_ ->]]]. simpl in Hf.
  apply loop_sound in Hf as [[]|[pre [m [post [E [Hc [-> [_ First]]]]]]]].
  exists content, pre, m, post. repeat split; auto.
  - now apply confident_leb.
  - intros m' Hm' Hn. specialize (First m' Hm' Hn).
    unfold licensing.confident in First.
    now destruct (PrimFloat.leb _ _).
Qed.

(** Every match whose confidence is not at or below 0.9 has its license
    name among the findings. *)
Theorem Classify_findings_complete (filePath : string) (r : Reader)
        (g g' : licensing.globals Classifier) (t : list licensing.event)
        (lf : licensing.LicenseFile) (content : string) (m : classifier.Match) :
  Classify' filePath r g = (t, g', Ok lf) ->
  io_ReadAll r = (content, None) ->
  In m (classifier.Matches
          (Classifier_Match (licensing.cf g')
             (Classifier_Normalize (licensing.cf g') content))) ->
  PrimFloat.leb (classifier.Confidence m) licensing.threshold = false ->
  In (classifier.Name m) (map licensing.Name (licensing.Findings lf)).
Proof.
  intros H HR Hm Hc. apply Classify_Ok in H as [content' [HR' [_ ->]]].
  rewrite HR in HR'. injection HR' as <-. simpl.
  apply confident_leb in Hc.
  assert (Inv : licensing.loopInvariant
                  (classifyLoop'
                     (classifier.Matches
                        (Classifier_Match (licensing.cf g')
                           (Classifier_Normalize (licensing.cf g') content)))))
    by (apply loop_invariant; split; [constructor | now split]).
  apply Inv. now apply loop_records_confident.
Qed.

(** Matches at or below 0.9 leave no mark: the loop ends in the same
    findings and the same file type as on the list without them. *)
Theorem unconfident_matches_do_not_count (ms : list classifier.Match) :
  classifyLoop' (filter licensing.confident ms) = classifyLoop' ms.
Proof. apply loop_skips_unconfident. Qed.

(** A match whose license name was already recorded leaves no mark either,
    whatever its confidence and match type: the loop ends as on the list
    without it. *)
Theorem repeated_name_does_not_count (pre post : list classifier.Match)
        (m m' : classifier.Match) :
  In m' pre -> licensing.confident m' = true ->
  classifier.Name m' = classifier.Name m ->
  classifyLoop' (pre ++ m :: post) = classifyLoop' (pre ++ post).
Proof.
  intros Hin Hc Hn. unfold licensing.classifyLoop.
  rewrite !fold_left_app. simpl. f_equal.
  set (st := fold_left loopBody' pre _).
  assert (S : In (classifier.Name m) (licensing.seen st)).
  { rewrite <- Hn. now apply loop_records_confident. }
  destruct (loopBody_cases st m) as [[_ E]|[[_ [_ E]]|[_ [Fresh _]]]];
    [exact E | exact E | contradiction].
Qed.

Lemma loop_type_of_last_typed_match (pre post : list classifier.Match)
      (m : classifier.Match) :
  (forall x, In x post -> licensing.confident x = true ->
             classifier.MatchType x <> "Header"
             /\ classifier.MatchType x <> "License") ->
  licensing.confident m = true ->
  (forall x, In x pre -> licensing.confident x = true ->
             classifier.Name x <> classifier.Name m) ->
  licensing.matchType (classifyLoop' (pre ++ m :: post)) =
    if classifier.MatchType m =? "Header" then LicenseTypeHeader
    else if classifier.MatchType m =? "License" then LicenseTypeFile
    else licensing.matchType (classifyLoop' pre).
Proof.
  intros Hpost Hc Hfresh. unfold licensing.classifyLoop.
  rewrite !fold_left_app. simpl.
  set (st := fold_left loopBody' pre _).
  rewrite (loop_type_kept post _ Hpost).
  assert (Fresh : ~ In (classifier.Name m) (licensing.seen st)).
  { intros H. apply loop_seen_origin in H as [[]|[x [Hx [Cx Nx]]]].
    exact (Hfresh x Hx Cx Nx). }
  destruct (loopBody_cases st m)
    as [[C _]|[[_ [S _]]|[_ [_ [_ [_ ->]]]]]];
    [congruence | contradiction | reflexivity].
Qed.

(** The type of the file [Classify] returns is decided by the last
    recorded match of type ["Header"] or ["License"]: when a match that is
    recorded (confident, its name not among the confident matches before
    it) is followed by no confident match of either type, the file has the
    header constant for a ["Header"] match and the file constant for a
    ["License"] match; with no confident match of either type at all the
    type of the file is empty. *)
Theorem file_type_of_last_typed_match (filePath : string) (r : Reader)
        (g g' : licensing.globals Classifier) (t : list licensing.event)
        (lf : licensing.LicenseFile) (content : string) :
  Classify' filePath r g = (t, g', Ok lf) ->
  io_ReadAll r = (content, None) ->
  let matches :=
    classifier.Matches
      (Classifier_Match (licensing.cf g')
         (Classifier_Normalize (licensing.cf g') content)) in
  (forall pre m post,
      matches = (pre ++ m :: post)%list ->
      (forall x, In x post -> licensing.confident x = true ->
                 classifier.MatchType x <> "Header"
                 /\ classifier.MatchType x <> "License") ->
      licensing.confident m = true ->
      (forall x, In x pre -> licensing.confident x = true ->
                 classifier.Name x <> classifier.Name m) ->
      (classifier.MatchType m = "Header" ->
       licensing.Type_ lf = LicenseTypeHeader)
      /\ (classifier.MatchType m = "License" ->
          licensing.Type_ lf = LicenseTypeFile))
  /\ ((forall x, In x matches -> licensing.confident x = true ->
                 classifier.MatchType x <> "Header"
                 /\ classifier.MatchType x <> "License") ->
      licensing.Type_ lf = "")
  /\ licensing.FilePath lf = filePath.
Proof.
  intros H HR matches.
  apply Classify_Ok in H as [content' [HR' [_ ->]]].
  rewrite HR in HR'. injection HR' as <-. fold matches. simpl.
  split; [|split; [|reflexivity]].
  - intros pre m post E Hpost Hc Hfresh. rewrite E.
    rewrite (loop_type_of_last_typed_match pre post m Hpost Hc Hfresh).
    split; intros ->; reflexivity.
  - intros Hnone. unfold licensing.classifyLoop.
    now rewrite (loop_type_kept matches _ Hnone).
Qed.

Lemma session_load (calls : list (string * Reader))
      (g : licensing.globals Classifier) :
  let '(t, g', _) := session' calls g in
  (filter licensing.isLoad t = [] /\ (g' = g \/ licensing.classifierOnce g = false))
  \/ (licensing.classifierOnce g = false
      /\ filter licensing.isLoad t = [licensing.LoadDefaultClassifier]
      /\ licensing.classifierOnce g' = true).
Proof.
  revert g. induction calls as [|[filePath r] calls IH]; intros g; simpl.
  { left. split; [reflexivity | now left]. }
  pose proof (Classify_load filePath r g) as L.
  destruct (Classify' filePath r g) as [[t g1] o].
  specialize (IH g1).
  destruct (session' calls g1) as [[t' g2] os].
  rewrite filter_app.
  destruct L as [[-> ->]|[Once [_ [-> ->]]]]; simpl.
  - exact IH.
  - right. split; [exact Once|].
    destruct IH as [[-> [->|IH]]|[IH _]]; simpl in *;
      try discriminate; now split.
Qed.

(** Over any sequence of [Classify] calls the default classifier is loaded
    at most once, and not at all once [classifierOnce] has run: then the
    package variables stay as they are. *)
Theorem classifier_loaded_at_most_once (calls : list (string * Reader))
        (g : licensing.globals Classifier) :
  List.length (filter licensing.isLoad (fst (fst (session' calls g)))) <= 1
  /\ (licensing.classifierOnce g = true ->
      filter licensing.isLoad (fst (fst (session' calls g))) = []
      /\ snd (fst (session' calls g)) = g).
Proof.
  pose proof (session_load calls g) as L.
  destruct (session' calls g) as [[t g'] os]. simpl.
  destruct L as [[-> L]|[Once [-> _]]]; simpl.
  - split; [apply le_0_n|]. intros Once. split; [reflexivity|].
    destruct L as [->|L]; [reflexivity | congruence].
  - split; [apply le_n|]. intros H. congruence.
Qed.

(** A failed load is reported once: the call that loads the classifier
    returns the error of [assets.DefaultClassifier] as it is; after it
    [initGoogleClassifier] answers nil without loading again, so no later
    call reports the failure.  A later call whose read succeeds panics on
    the nil [cf] the load left; had the load left a classifier beside the
    error, the call would classify with it. *)
Theorem load_error_reported_once (c : option Classifier) (e : error)
        (file1 file2 : string) (r1 r2 : Reader) (content1 content2 : string)
        (g : licensing.globals Classifier) :
  assets_DefaultClassifier = (c, Some e) ->
  licensing.classifierOnce g = false ->
  io_ReadAll r1 = (content1, None) ->
  io_ReadAll r2 = (content2, None) ->
  let g1 := licensing.mkGlobals Classifier c true in
  Classify' file1 r1 g =
    ([licensing.Debug "Loading the the default license classifier...";
      licensing.LoadDefaultClassifier], g1, Err e)
  /\ init' g1 = ([], g1, None)
  /\ (forall err, snd (Classify' file2 r2 g1) <> Err err)
  /\ (c = None ->
      Classify' file2 r2 g1 =
        ([], g1, Panic "invalid memory address or nil pointer dereference"))
  /\ (c <> None ->
      exists lf,
        Classify' file2 r2 g1 = ([], g1, Ok lf)
        /\ licensing.FilePath lf = file2
        /\ licensing.Findings lf =
             licensing.findings
               (classifyLoop'
                  (classifier.Matches
                     (Classifier_Match c (Classifier_Normalize c content2))))).
Proof.
  intros HD Once H1 H2 g1.
  unfold licensing.Classify, licensing.initGoogleClassifier.
  rewrite H1, H2, Once, HD. simpl.
  split; [reflexivity|]. split; [reflexivity|].
  destruct c as [x|]; simpl; split; try discriminate; split.
  - discriminate.
  - intros _. eexists. repeat split.
  - reflexivity.
  - intros N. now elim N.
Qed.

(** Calls whose read fails touch nothing: each answers with the read error
    wrapped with the quoted file path, the classifier is not loaded and
    the package variables stay as they are. *)
Theorem read_errors_load_nothing (calls : list (string * Reader))
        (g : licensing.globals Classifier) :
  (forall call, In call calls -> snd (io_ReadAll (snd call)) <> None) ->
  fst (session' calls g) = ([], g)
  /\ Forall2
       (fun call o =>
          exists err,
            snd (io_ReadAll (snd call)) = Some err
            /\ o = Err (Errorf ("unable to read a license file "
                                ++ strconv_Quote (fst call)) err))
       calls (snd (session' calls g)).
Proof.
  induction calls as [|[filePath r] calls IH]; intros H; simpl.
  { split; [reflexivity | constructor]. }
  assert (Hr := H (filePath, r) (or_introl eq_refl)). simpl in Hr.
  destruct IH as [IHs IHo]; [intros call Hc; apply H; now right|].
  unfold licensing.Classify.
  destruct (io_ReadAll r) as [content [err|]] eqn:ER; [|now elim Hr].
  destruct (session' calls g) as [[t' g2] os]. simpl in *.
  injection IHs as -> ->. split; [reflexivity|].
  constructor; [|exact IHo].
  exists err. cbn [snd]. rewrite ER. split; reflexivity.
Qed.

End classification.

(* ------------------------------------------------------------------ *)
(** ** Runs on the stand-in registry and classifier *)

Lemma fetch_options_shape_witness :
  In (CallGet fake.alpine fake.allOptions)
     (trace (fake.tryRemote "alpine" fake.alpine (fake.anyOSInsecure "arm64")))
  /\ transportOptions fake.allOptions = [remote.WithTransport insecureTransport]
  /\ List.length (platformOptions fake.allOptions) = 1
  /\ List.length (authOptions fake.allOptions) = 1
  /\ fake.allOptions =
       (transportOptions fake.allOptions ++ platformOptions fake.allOptions
        ++ authOptions fake.allOptions)%list.
Proof.
  assert (H : In (CallGet fake.alpine fake.allOptions)
                 (trace (fake.tryRemote "alpine" fake.alpine
                                        (fake.anyOSInsecure "arm64"))))
    by (simpl; right; right; left; reflexivity).
  split; [exact H|].
  exact (fetch_options_shape
           string string fake.GetToken fake.Index fake.IndexManifest
           fake.ParsePlatform fake.Get fake.Image
           "alpine" fake.alpine (fake.anyOSInsecure "arm64") _ _ H).
Defined.

Lemma tryRemote_success_witness :
  result (fake.tryRemote "alpine:3.18" fake.alpine fake.anonymous) =
    Ok (mkRemoteImage string "alpine:3.18" (mkImplicitReference fake.alpine)
                      fake.fetched "image@sha256:abcd")
  /\ exists pre opts desc handle,
       trace (fake.tryRemote "alpine:3.18" fake.alpine fake.anonymous) =
         (pre ++ [CallGet fake.alpine opts; CallImage desc])%list
       /\ getCalls pre = [] /\ imageCalls pre = []
       /\ fake.Get fake.alpine opts = inr desc
       /\ fake.Image desc = inr handle
       /\ mkRemoteImage string "alpine:3.18" (mkImplicitReference fake.alpine)
                        fake.fetched "image@sha256:abcd"
          = mkRemoteImage string "alpine:3.18"
                          (mkImplicitReference fake.alpine) desc handle
       /\ Name (mkRemoteImage string "alpine:3.18"
                              (mkImplicitReference fake.alpine)
                              fake.fetched "image@sha256:abcd")
          = "alpine:3.18".
Proof.
  split; [reflexivity|].
  exact (tryRemote_success
           string string fake.GetToken fake.Index fake.IndexManifest
           fake.ParsePlatform fake.Get fake.Image
           "alpine:3.18" fake.alpine fake.anonymous
           (mkRemoteImage string "alpine:3.18" (mkImplicitReference fake.alpine)
                          fake.fetched "image@sha256:abcd")
           eq_refl).
Defined.

Lemma tryRemote_calls_once_witness :
  In fake.fetched
     (imageCalls (trace (fake.tryRemote "alpine" fake.alpine
                                        (fake.anyOSInsecure "arm64"))))
  /\ exists opts,
       getCalls (trace (fake.tryRemote "alpine" fake.alpine
                                       (fake.anyOSInsecure "arm64"))) = [opts]
       /\ fake.Get fake.alpine opts = inr fake.fetched.
Proof.
  assert (H : In fake.fetched
                 (imageCalls (trace (fake.tryRemote "alpine" fake.alpine
                                       (fake.anyOSInsecure "arm64")))))
    by (simpl; left; reflexivity).
  split; [exact H|].
  exact (proj2 (proj2 (proj2 (tryRemote_calls_once
           string string fake.GetToken fake.Index fake.IndexManifest
           fake.ParsePlatform fake.Get fake.Image
           "alpine" fake.alpine (fake.anyOSInsecure "arm64")))) _ H).
Defined.

Lemma fetch_reached_iff_witness :
  getCalls (trace (fake.tryRemote "alpine:3.18" fake.alpine fake.anonymous))
  <> []
  /\ ~ (types.Platform (fake.anyOS "amd64") = ""
        \/ exists s,
             result (fake.parsePlatform (fake.at_ "down.example.com")
                       (types.Platform (fake.anyOS "amd64"))) = Ok (Some s)).
Proof.
  split.
  - exact (proj2 (fetch_reached_iff
             string string fake.GetToken fake.Index fake.IndexManifest
             fake.ParsePlatform fake.Get fake.Image
             "alpine:3.18" fake.alpine fake.anonymous) (or_introl eq_refl)).
  - intros H.
    apply (proj2 (fetch_reached_iff
             string string fake.GetToken fake.Index fake.IndexManifest
             fake.ParsePlatform fake.Get fake.Image
             "app" (fake.at_ "down.example.com") (fake.anyOS "amd64")))
      in H.
    apply H. reflexivity.
Defined.

Lemma concrete_platform_run_witness :
  indexCalls (trace (fake.tryRemote "alpine" fake.alpine fake.onLinuxArm64))
  = []
  /\ exists opts,
       getCalls (trace (fake.tryRemote "alpine" fake.alpine fake.onLinuxArm64))
       = [opts]
       /\ platformOptions opts = [remote.WithPlatform fake.linuxArm64].
Proof.
  assert (Hp : types.Platform fake.onLinuxArm64 <> "") by discriminate.
  pose proof (concrete_platform_run
                string string fake.GetToken fake.Index fake.IndexManifest
                fake.ParsePlatform fake.Get fake.Image
                "alpine" fake.alpine fake.onLinuxArm64 Hp eq_refl) as W.
  split; [exact (proj1 W)|].
  exact (proj2 (proj2 W) fake.linuxArm64 eq_refl).
Defined.

Lemma wildcard_platform_run_witness :
  indexCalls (trace (fake.tryRemote "alpine" fake.alpine (fake.anyOS "arm64")))
  = [CallIndex fake.alpine []]
  /\ exists opts,
       getCalls (trace (fake.tryRemote "alpine" fake.alpine (fake.anyOS "arm64")))
       = [opts]
       /\ platformOptions opts = [remote.WithPlatform fake.linuxArm64].
Proof.
  exact (wildcard_platform_run
           string string fake.GetToken fake.Index fake.IndexManifest
           fake.ParsePlatform fake.Get fake.Image
           "alpine" fake.alpine (fake.anyOS "arm64") "index.docker.io"
           (v1.mkIndexManifest 2 [fake.entry "linux" "amd64";
                                  fake.entry "windows" "amd64"])
           (fake.entry "linux" "amd64") [fake.entry "windows" "amd64"]
           (v1.mkPlatform "amd64" "linux" "" "") fake.linuxArm64
           eq_refl eq_refl eq_refl eq_refl eq_refl eq_refl).
Defined.

Lemma parsePlatform_no_constraint_iff_witness :
  result (fake.parsePlatform (fake.at_ "empty.example.com") "*/amd64") = Ok None
  /\ ~ result (fake.parsePlatform fake.alpine "linux/amd64") = Ok None.
Proof.
  split.
  - apply (proj2 (proj1 (parsePlatform_no_constraint_iff
             string fake.Index fake.IndexManifest fake.ParsePlatform
             (fake.at_ "empty.example.com") "*/amd64"))).
    split; [reflexivity|]. right.
    exists "empty.example.com", (v1.mkIndexManifest 2 []). now repeat split.
  - intros H.
    apply (proj1 (proj1 (parsePlatform_no_constraint_iff
             string fake.Index fake.IndexManifest fake.ParsePlatform
             fake.alpine "linux/amd64"))) in H.
    destruct H as [H _]. discriminate.
Defined.

Lemma wildcard_not_multi_arch_panics_witness :
  result (fake.tryRemote "app" (fake.at_ "legacy.example.com")
                         (fake.anyOS "amd64"))
  = Panic "invalid memory address or nil pointer dereference"
  /\ getCalls (trace (fake.tryRemote "app" (fake.at_ "legacy.example.com")
                                     (fake.anyOS "amd64"))) = []
  /\ indexCalls (trace (fake.tryRemote "app" (fake.at_ "legacy.example.com")
                                       (fake.anyOS "amd64")))
     = [CallIndex (fake.at_ "legacy.example.com") []].
Proof.
  apply (wildcard_not_multi_arch_panics
           string string fake.GetToken fake.Index fake.IndexManifest
           fake.ParsePlatform fake.Get fake.Image
           "app" (fake.at_ "legacy.example.com") (fake.anyOS "amd64") eq_refl).
  left.
  exists (ErrSchema1 "application/vnd.docker.distribution.manifest.v1+json").
  split; reflexivity.
Defined.

Example classify_license_text :
  fakeLicense.Classify "LICENSE" "text" licensing.start =
    (fakeLicense.loading, fakeLicense.loaded, Ok fakeLicense.classified).
Proof. reflexivity. Qed.

Lemma Classify_findings_distinct_witness :
  fakeLicense.Classify "LICENSE" "text" licensing.start =
    (fakeLicense.loading, fakeLicense.loaded, Ok fakeLicense.classified)
  /\ NoDup (map licensing.Name (licensing.Findings fakeLicense.classified)).
Proof.
  split; [reflexivity|].
  exact (Classify_findings_distinct
           unit string "header" "license-file" fakeLicense.ReadAll
           (Some tt, None) fakeLicense.Normalize fakeLicense.Match
           fakeLicense.Quote "LICENSE" "text" licensing.start
           fakeLicense.loaded fakeLicense.loading fakeLicense.classified
           eq_refl).
Defined.

Lemma Classify_finding_origin_witness :
  In fakeLicense.foundApache
     (licensing.Findings fakeLicense.classified)
  /\ exists content pre m post,
       fakeLicense.ReadAll "text" = (content, None)
       /\ classifier.Matches
            (fakeLicense.Match (licensing.cf fakeLicense.loaded)
               (fakeLicense.Normalize (licensing.cf fakeLicense.loaded) content))
          = (pre ++ m :: post)%list
       /\ PrimFloat.leb (classifier.Confidence m) licensing.threshold = false
       /\ fakeLicense.foundApache =
            licensing.mkLicenseFinding
              (classifier.Name m) (classifier.Confidence m)
              ("https://spdx.org/licenses/" ++ classifier.Name m ++ ".html")
       /\ forall m', In m' pre -> classifier.Name m' = classifier.Name m ->
                     PrimFloat.leb (classifier.Confidence m')
                                   licensing.threshold = true.
Proof.
  assert (H : In fakeLicense.foundApache
                 (licensing.Findings fakeLicense.classified))
    by (simpl; right; left; reflexivity).
  split; [exact H|].
  exact (Classify_finding_origin
           unit string "header" "license-file" fakeLicense.ReadAll
           (Some tt, None) fakeLicense.Normalize fakeLicense.Match
           fakeLicense.Quote "LICENSE" "text" licensing.start
           fakeLicense.loaded fakeLicense.loading fakeLicense.classified
           _ eq_refl H).
Defined.

Lemma Classify_findings_complete_witness :
  In fakeLicense.mitHeader
     (classifier.Matches (fakeLicense.Match (Some tt) "text"))
  /\ In "MIT" (map licensing.Name (licensing.Findings fakeLicense.classified)).
Proof.
  assert (H : In fakeLicense.mitHeader
                 (classifier.Matches (fakeLicense.Match (Some tt) "text")))
    by (simpl; right; right; right; left; reflexivity).
  split; [exact H|].
  exact (Classify_findings_complete
           unit string "header" "license-file" fakeLicense.ReadAll
           (Some tt, None) fakeLicense.Normalize fakeLicense.Match
           fakeLicense.Quote "LICENSE" "text" licensing.start
           fakeLicense.loaded fakeLicense.loading fakeLicense.classified
           "text" fakeLicense.mitHeader eq_refl eq_refl H eq_refl).
Defined.

Lemma repeated_name_does_not_count_witness :
  fakeLicense.classifyLoop
    ([fakeLicense.mitFile]
     ++ fakeLicense.mitHeader
     :: [fakeLicense.apacheFile])
  = fakeLicense.classifyLoop
      ([fakeLicense.mitFile]
       ++ [fakeLicense.apacheFile])
  /\ licensing.matchType
       (fakeLicense.classifyLoop
          ([fakeLicense.mitFile]
           ++ fakeLicense.mitHeader
           :: [fakeLicense.apacheFile]))
     = "license-file".
Proof.
  split; [|reflexivity].
  exact (repeated_name_does_not_count
           "header" "license-file"
           [fakeLicense.mitFile]
           [fakeLicense.apacheFile]
           fakeLicense.mitHeader
           fakeLicense.mitFile
           (or_introl eq_refl) eq_refl eq_refl).
Defined.

Lemma file_type_of_last_typed_match_witness :
  fakeLicense.ClassifyNotice "LICENSE" "text" licensing.start =
    (fakeLicense.loading, fakeLicense.loaded, Ok fakeLicense.classified)
  /\ fakeLicense.notice =
       ([fakeLicense.apacheLow; fakeLicense.mitFile]
        ++ fakeLicense.apacheHeader :: [fakeLicense.copyright])%list
  /\ licensing.Type_ fakeLicense.classified = "header".
Proof.
  split; [reflexivity|]. split; [reflexivity|].
  apply (proj1 (file_type_of_last_typed_match
                  unit string "header" "license-file" fakeLicense.ReadAll
                  (Some tt, None) fakeLicense.Normalize fakeLicense.MatchNotice
                  fakeLicense.Quote "LICENSE" "text" licensing.start
                  fakeLicense.loaded fakeLicense.loading fakeLicense.classified
                  "text" eq_refl eq_refl)
               [fakeLicense.apacheLow; fakeLicense.mitFile]
               fakeLicense.apacheHeader
               [fakeLicense.copyright]).
  - reflexivity.
  - intros x [<-|[]] _. split; discriminate.
  - reflexivity.
  - intros x [<-|[<-|[]]] Hc; [vm_compute in Hc|]; discriminate.
  - reflexivity.
Defined.

Lemma classifier_loaded_at_most_once_witness :
  licensing.classifierOnce fakeLicense.loaded = true
  /\ filter licensing.isLoad
       (fst (fst (fakeLicense.session [("LICENSE", "text"); ("COPYING", "text")]
                                      fakeLicense.loaded))) = []
  /\ snd (fst (fakeLicense.session [("LICENSE", "text"); ("COPYING", "text")]
                                   fakeLicense.loaded)) = fakeLicense.loaded.
Proof.
  split; [reflexivity|].
  exact (proj2 (classifier_loaded_at_most_once
                  unit string "header" "license-file" fakeLicense.ReadAll
                  (Some tt, None) fakeLicense.Normalize fakeLicense.Match
                  fakeLicense.Quote
                  [("LICENSE", "text"); ("COPYING", "text")] fakeLicense.loaded)
               eq_refl).
Defined.

Lemma load_error_reported_once_witness :
  fakeLicense.ClassifyBroken "LICENSE" "text" licensing.start =
    (fakeLicense.loading, licensing.mkGlobals unit None true,
     Err (ErrorString "assets: not found"))
  /\ licensing.initGoogleClassifier
       (None, Some (ErrorString "assets: not found"))
       (licensing.mkGlobals unit None true)
     = ([], licensing.mkGlobals unit None true, None)
  /\ fakeLicense.ClassifyBroken "COPYING" "text"
                                (licensing.mkGlobals unit None true)
     = ([], licensing.mkGlobals unit None true,
        Panic "invalid memory address or nil pointer dereference").
Proof.
  pose proof (load_error_reported_once
                unit string "header" "license-file" fakeLicense.ReadAll
                (None, Some (ErrorString "assets: not found"))
                fakeLicense.Normalize fakeLicense.Match fakeLicense.Quote
                None (ErrorString "assets: not found")
                "LICENSE" "COPYING" "text" "text" "text" "text" licensing.start
                eq_refl eq_refl eq_refl eq_refl) as W.
  split; [exact (proj1 W)|]. split; [exact (proj1 (proj2 W))|].
  exact (proj1 (proj2 (proj2 (proj2 W))) eq_refl).
Defined.

Lemma read_errors_load_nothing_witness :
  fst (fakeLicense.session [("LICENSE", "<closed>")] licensing.start)
  = ([], licensing.start)
  /\ Forall2
       (fun call o =>
          exists err,
            snd (fakeLicense.ReadAll (snd call)) = Some err
            /\ o = Err (Errorf ("unable to read a license file "
                                ++ fakeLicense.Quote (fst call)) err))
       [("LICENSE", "<closed>")]
       (snd (fakeLicense.session [("LICENSE", "<closed>")] licensing.start)).
Proof.
  apply (read_errors_load_nothing
           unit string "header" "license-file" fakeLicense.ReadAll
           (Some tt, None) fakeLicense.Normalize fakeLicense.Match
           fakeLicense.Quote [("LICENSE", "<closed>")] licensing.start).
  intros call [<-|[]]. discriminate.
Defined.
